(** * Sentinel: voting rules, run gate, run lock and configuration reader

    A shallow embedding of [bin/sentinel.py] and [lib/sucr_config.py].  The
    governance store, the vote table, the transient key/value table, the
    scheduler marker and the clock are fields of one [World]; every call by
    which the script acts on the daemon ([vote], [submit], [ping], the
    object sync) is appended to the [trace] of the world, so that "the pass
    decides (signal, outcome) for object o" reads "the pass appends
    [EVote o signal outcome]".  The questions the script asks the daemon
    ([rpc_command('getgovernanceinfo')], [is_synced()], [is_masternode()],
    [next_superblock_height()], ..., [we_are_the_winner()]) are answered by
    the fields of [SucreDaemon] and leave no event: wherever a statement
    below counts or excludes the calls of a pass, it speaks of its votes,
    submissions, pings and syncs.

    [lib/models.py], [lib/scheduler.py], [lib/sucrd.py], [lib/sucrlib.py],
    [lib/misc.py] and [lib/config.py] are not part of the sources at hand.
    The queries and helpers of those files that the script calls are
    modelled from the specification (each such definition says so); the
    candidate builder, the proposal ranking and the hash of a candidate are
    parameters of the development. *)

From Stdlib Require Import ZArith Ascii String List Bool Permutation Sorted
  OrdersEx Lia.
From stdpp Require Import gmap strings.
Import ListNotations.
Local Open Scope Z_scope.

(** ** Vote enumerations ([models.VoteSignals], [models.VoteOutcomes]) *)

Module VoteSignals.
Inductive t := funding | valid | delete.
Definition eqb (a b : t) : bool :=
  match a, b with
  | funding, funding | valid, valid | delete, delete => true
  | _, _ => false
  end.
End VoteSignals.

Module VoteOutcomes.
Inductive t := yes | no | abstain.
Definition eqb (a b : t) : bool :=
  match a, b with
  | yes, yes | no, no | abstain, abstain => true
  | _, _ => false
  end.
End VoteOutcomes.

(** ** Governance objects *)

Record Watchdog := mkWatchdog {
  wd_object_hash : string;
  wd_created_at : Z
}.

Record Proposal := mkProposal {
  p_object_hash : string;
  p_start_epoch : Z;
  p_end_epoch : Z;
  p_requested_amount : Z
}.

Record Superblock := mkSuperblock {
  sb_object_hash : string;
  sb_event_block_height : Z;
  sb_sb_hash : string;
  sb_payments : list (string * Z)
}.

(** The object a [vote] or [submit] call is made on. *)
Inductive GovObj :=
| GProposal (p : Proposal)
| GSuperblock (s : Superblock)
| GWatchdog (wd : Watchdog).

Definition object_hash (o : GovObj) : string :=
  match o with
  | GProposal p => p_object_hash p
  | GSuperblock s => sb_object_hash s
  | GWatchdog wd => wd_object_hash wd
  end.

Definition is_watchdog (o : GovObj) : bool :=
  match o with GWatchdog _ => true | _ => false end.

(** A row of the local vote table: this voter's vote on one object. *)
Record Vote := mkVote {
  vote_object_hash : string;
  vote_signal : VoteSignals.t;
  vote_outcome : VoteOutcomes.t
}.

(** A row of the transient table: [(value, expires_at)] under its key. *)
Record TransientEntry := mkTransient {
  tr_value : Z;
  tr_expires_at : Z
}.

(** ** The daemon, as the script reads it through [sucrd] *)

Record SucreDaemon := mkDaemon {
  rpc_reachable : bool;              (* rpc_command('getgovernanceinfo') does not raise *)
  is_synced : bool;
  is_masternode : bool;
  has_sentinel_ping : bool;
  next_superblock_height : Z;
  is_govobj_maturity_phase : bool;
  governance_quorum : Z;
  next_superblock_max_budget : Z;
  get_superblock_budget_allocation : Z -> Z;
  block_height_to_epoch : Z -> Z;
  we_are_the_winner : bool;
  superblockcycle : Z;
  watchdog_expiry_threshold : Z;     (* the spec's expiry_threshold *)
  gobject_list : list GovObj         (* what "gobject list" reports *)
}.

(** ** Calls that act on the daemon

    A vote, a submission, a ping, the object sync.  Queries are not
    recorded. *)

Inductive Event :=
| EVote (o : GovObj) (signal : VoteSignals.t) (outcome : VoteOutcomes.t)
| ESubmit (o : GovObj)
| EPing
| ESync.

(** ** The world the script runs in *)

Record World := mkWorld {
  clock : Z;                                   (* time.time(), misc.now() *)
  watchdogs : list Watchdog;                   (* Watchdog.select() *)
  proposals : list Proposal;                   (* Proposal.select() *)
  superblocks : list Superblock;               (* Superblock.select() *)
  votes : list Vote;
  transients : gmap string TransientEntry;
  next_run : option Z;                         (* the scheduler's marker *)
  daemon : SucreDaemon;                        (* SucreDaemon.from_sucr_conf *)
  argv_bypass : bool;                          (* -b / --bypass-scheduler *)
  ansi_colors_disabled : bool;   (* ANSI_COLORS_DISABLED is in os.environ *)
  trace : list Event
}.

Definition set_clock (t : Z) (w : World) : World :=
  mkWorld t (watchdogs w) (proposals w) (superblocks w) (votes w)
          (transients w) (next_run w) (daemon w) (argv_bypass w)
          (ansi_colors_disabled w) (trace w).

Definition set_store (wds : list Watchdog) (ps : list Proposal)
    (sbs : list Superblock) (w : World) : World :=
  mkWorld (clock w) wds ps sbs (votes w)
          (transients w) (next_run w) (daemon w) (argv_bypass w)
          (ansi_colors_disabled w) (trace w).

Definition set_votes (vs : list Vote) (w : World) : World :=
  mkWorld (clock w) (watchdogs w) (proposals w) (superblocks w) vs
          (transients w) (next_run w) (daemon w) (argv_bypass w)
          (ansi_colors_disabled w) (trace w).

Definition set_transients (m : gmap string TransientEntry) (w : World) : World :=
  mkWorld (clock w) (watchdogs w) (proposals w) (superblocks w) (votes w)
          m (next_run w) (daemon w) (argv_bypass w)
          (ansi_colors_disabled w) (trace w).

Definition set_next_run (r : option Z) (w : World) : World :=
  mkWorld (clock w) (watchdogs w) (proposals w) (superblocks w) (votes w)
          (transients w) r (daemon w) (argv_bypass w)
          (ansi_colors_disabled w) (trace w).

Definition set_argv_bypass (b : bool) (w : World) : World :=
  mkWorld (clock w) (watchdogs w) (proposals w) (superblocks w) (votes w)
          (transients w) (next_run w) (daemon w) b
          (ansi_colors_disabled w) (trace w).

Definition emit (e : Event) (w : World) : World :=
  mkWorld (clock w) (watchdogs w) (proposals w) (superblocks w) (votes w)
          (transients w) (next_run w) (daemon w) (argv_bypass w)
          (ansi_colors_disabled w) (trace w ++ [e]).

(** [for x in xs: body(x)] *)
Definition for_each {A : Type} (xs : list A) (body : A -> World -> World)
    (w : World) : World :=
  fold_left (fun acc x => body x acc) xs w.

(** How a call ends: it returns, it raises [SystemExit], or it raises an
    exception that nothing catches. *)
Inductive Exit :=
| Returned                 (* the call returned *)
| SysExit (status : Z)     (* sys.exit(status) *)
| Raised (exc : string).   (* an uncaught exception of that class *)

(** The status the interpreter reports: an uncaught exception prints its
    traceback and gives 1. *)
Definition exit_status (e : Exit) : Z :=
  match e with
  | Returned => 0
  | SysExit status => status
  | Raised _ => 1
  end.

(** The world a pass ends in: the world itself for a pass that cannot
    raise, the second component for one that can. *)
Class Outcome (R : Type) := final_world : R -> World.
#[global] Instance Outcome_World : Outcome World := fun w => w.
#[global] Instance Outcome_Exit : Outcome (Exit * World) := snd.

(** The calls a pass made (its votes, submissions, pings and syncs, in
    order): what it appended to the trace it started from. *)
Definition emitted {R : Type} `{Outcome R} (pass : World -> R) (w : World)
    : list Event :=
  skipn (length (trace w)) (trace (final_world (pass w))).

(** ** Python built-ins used by the script *)

(** [a <= b] on [str]: lexicographic on the character codes. *)
Definition hash_leb (a b : string) : bool :=
  match String_as_OT.compare a b with
  | Gt => false
  | _ => true
  end.

Fixpoint insert_sorted {A : Type} (key : A -> string) (x : A) (l : list A)
    : list A :=
  match l with
  | [] => [x]
  | y :: l' =>
      if hash_leb (key x) (key y) then x :: l else y :: insert_sorted key x l'
  end.

(** [sorted(l, key=key)]: ascending and stable (an element is placed before
    the elements of equal key that followed it in [l]). *)
Definition sorted {A : Type} (key : A -> string) (l : list A) : list A :=
  fold_right (insert_sorted key) [] l.

(** [l.pop()]: the last element and the list without it; [None] stands for
    the IndexError on an empty list. *)
Definition pop {A : Type} (l : list A) : option (A * list A) :=
  match rev l with
  | [] => None
  | x :: r => Some (x, rev r)
  end.

(** Truth value of an [int]. *)
Definition truthy (v : Z) : bool := negb (v =? 0).

(** ** Instance methods of a governance object ([vote], [voted_on], [submit]) *)

Definition same_ballot (h : string) (signal : VoteSignals.t) (v : Vote) : bool :=
  String.eqb (vote_object_hash v) h && VoteSignals.eqb (vote_signal v) signal.

(** Modelled from the spec: [voted_on] of lib/models.py is the store's
    [hasVoted(object_hash, signal)]: this voter holds a vote with that signal
    on that object. *)
Definition voted_on (o : GovObj) (signal : VoteSignals.t) (w : World) : bool :=
  existsb (same_ballot (object_hash o) signal) (votes w).

(** Modelled from the spec: [vote] of lib/models.py is the vote submitter:
    the decision is persisted locally, superseding an earlier vote of the
    same signal on the same object, and submitted to the daemon. *)
Definition vote (o : GovObj) (signal : VoteSignals.t)
    (outcome : VoteOutcomes.t) (w : World) : World :=
  let kept :=
    List.filter (fun v => negb (same_ballot (object_hash o) signal v)) (votes w) in
  emit (EVote o signal outcome)
       (set_votes (mkVote (object_hash o) signal outcome :: kept) w).

(** Modelled from the spec: [submit] of lib/models.py hands the object to
    the daemon; the local store only learns of it through a later sync. *)
Definition submit (o : GovObj) (w : World) : World :=
  emit (ESubmit o) w.

(** ** Watchdog queries *)

(** Modelled from the spec: [Watchdog.expired] of lib/models.py selects the
    watchdogs with [now - created_at > expiry_threshold]. *)
Definition Watchdog_is_expired (sucrd : SucreDaemon) (now : Z) (wd : Watchdog)
    : bool :=
  watchdog_expiry_threshold sucrd <? now - wd_created_at wd.

Definition Watchdog_expired (sucrd : SucreDaemon) (w : World) : list Watchdog :=
  List.filter (Watchdog_is_expired sucrd (clock w)) (watchdogs w).

(** Modelled from the spec: [Watchdog.active] of lib/models.py selects the
    remaining watchdogs, those that are not expired. *)
Definition Watchdog_active (sucrd : SucreDaemon) (w : World) : list Watchdog :=
  List.filter (fun wd => negb (Watchdog_is_expired sucrd (clock w) wd))
              (watchdogs w).

(** [Watchdog(created_at=...)]: a fresh, unsaved row; its hash is assigned by
    the network once it is submitted, the field is empty until then. *)
Definition Watchdog_new (created_at : Z) : Watchdog :=
  mkWatchdog EmptyString created_at.

(** ** [watchdog_check] *)

Definition watchdog_check (sucrd : SucreDaemon) (w : World) : World :=
  (* delete expired watchdogs *)
  let w :=
    for_each (Watchdog_expired sucrd w)
      (fun wd => vote (GWatchdog wd) VoteSignals.delete VoteOutcomes.yes) w in
  (* now, get all the active ones... *)
  let active_wd := Watchdog_active sucrd w in
  let active_count := Z.of_nat (length active_wd) in
  if 0 =? active_count then
    (* none exist, submit a new one to the network *)
    let wd := Watchdog_new (clock w) in
    submit (GWatchdog wd) w
  else
    let wd_list := sorted wd_object_hash active_wd in
    (* highest hash wins *)
    match pop wd_list with
    | None => w
    | Some (winner, wd_list) =>
        let w := vote (GWatchdog winner) VoteSignals.valid VoteOutcomes.yes w in
        (* if remaining Watchdogs exist in the list, vote delete *)
        for_each wd_list
          (fun wd => vote (GWatchdog wd) VoteSignals.delete VoteOutcomes.yes) w
    end.

(** ** Class-level queries of the other models *)

(** Modelled from the spec: [Superblock.at_height] of lib/models.py is the
    store's [selectByHeight]. *)
Definition Superblock_at_height (ebh : Z) (w : World) : list Superblock :=
  List.filter (fun sb => sb_event_block_height sb =? ebh) (superblocks w).

Definition is_funding_yes_for (h : string) (v : Vote) : bool :=
  same_ballot h VoteSignals.funding v
  && VoteOutcomes.eqb (vote_outcome v) VoteOutcomes.yes.

(** Modelled from the spec: [Superblock.is_voted_funding] of lib/models.py
    tells whether this voter has cast a funding-Yes vote for any superblock
    at that event block height. *)
Definition Superblock_is_voted_funding (ebh : Z) (w : World) : bool :=
  existsb (fun sb => existsb (is_funding_yes_for (sb_object_hash sb)) (votes w))
          (Superblock_at_height ebh w).

(** Modelled from the spec: [Superblock.select().where(Superblock.sb_hash
    == h)] is the store's [selectBySbHash]. *)
Definition Superblock_where_sb_hash (h : string) (w : World) : list Superblock :=
  List.filter (fun sb => String.eqb (sb_sb_hash sb) h) (superblocks w).

(** Modelled from the spec: [Superblock.find_highest_deterministic] of
    lib/models.py searches the store for a record with that [sb_hash]; as
    the script's comment says, the one with the highest [object_hash]. *)
Definition Superblock_find_highest_deterministic (h : string) (w : World)
    : option Superblock :=
  option_map fst (pop (sorted sb_object_hash (Superblock_where_sb_hash h w))).

(** ** Transient key/value table (the run lock lives here) *)

(** Modelled from the spec: [Transient.get] of lib/models.py yields the value
    of an unexpired entry; an entry whose time has elapsed is treated as
    absent regardless of presence. *)
Definition Transient_get (key : string) (w : World) : option Z :=
  match transients w !! key with
  | Some e => if clock w <=? tr_expires_at e then Some (tr_value e) else None
  | None => None
  end.

(** [if is_running:] on what [Transient.get] returned. *)
Definition is_true (r : option Z) : bool :=
  match r with
  | Some v => truthy v
  | None => false
  end.

(** Modelled from the spec: [Transient.set] of lib/models.py creates the
    entry [(key, value, expires_at)] with [expires_at = now + ttl]. *)
Definition Transient_set (key : string) (value ttl : Z) (w : World) : World :=
  set_transients (<[key := mkTransient value (clock w + ttl)]> (transients w)) w.

(** Modelled from the spec: [Transient.delete] of lib/models.py deletes the
    entry under that key. *)
Definition Transient_delete (key : string) (w : World) : World :=
  set_transients (base.delete key (transients w)) w.

(** [misc.now()] *)
Definition misc_now (w : World) : Z := clock w.

(** ** Scheduler

    The script keeps the marker in the transient table under a key of
    lib/scheduler.py; here it has a field of its own. *)

(** Modelled from the spec: [Scheduler.is_run_time] of lib/scheduler.py is
    true within the permitted window; a cleared marker does not block a
    run, a persisted one blocks until its time has come. *)
Definition Scheduler_is_run_time (w : World) : bool :=
  match next_run w with
  | None => true
  | Some t => t <=? clock w
  end.

(** Modelled from the spec: [Scheduler.clear_schedule] of lib/scheduler.py
    clears the next-window marker. *)
Definition Scheduler_clear_schedule (w : World) : World :=
  set_next_run None w.

(** ** Store synchronisation *)

Fixpoint upsert {A : Type} (key : A -> string) (x : A) (l : list A) : list A :=
  match l with
  | [] => [x]
  | y :: l' =>
      if String.eqb (key y) (key x) then x :: l' else y :: upsert key x l'
  end.

Definition Store_upsert (o : GovObj) (w : World) : World :=
  match o with
  | GProposal p =>
      set_store (watchdogs w) (upsert p_object_hash p (proposals w))
                (superblocks w) w
  | GSuperblock s =>
      set_store (watchdogs w) (proposals w)
                (upsert sb_object_hash s (superblocks w)) w
  | GWatchdog wd =>
      set_store (upsert wd_object_hash wd (watchdogs w)) (proposals w)
                (superblocks w) w
  end.

(** Modelled from the spec: [GovernanceObject.sync] of lib/models.py fetches
    the daemon's object list and upserts each object into the store by its
    [object_hash]; it never deletes. *)
Definition GovernanceObject_sync (sucrd : SucreDaemon) (w : World) : World :=
  for_each (gobject_list sucrd) Store_upsert (emit ESync w).

(** sync sucrd gobject list with our local relational DB backend *)
Definition perform_sucrd_object_sync (sucrd : SucreDaemon) (w : World) : World :=
  GovernanceObject_sync sucrd w.

(** ping sucrd *)
Definition sentinel_ping (sucrd : SucreDaemon) (w : World) : World :=
  emit EPing w.

Definition is_sucrd_port_open (sucrd : SucreDaemon) : bool :=
  if rpc_reachable sucrd then true else false.

(** ** [termcolor.colored]

    termcolor 1.1.0, the library the script imports:
    [[
    def colored(text, color=None, on_color=None, attrs=None):
        if os.getenv('ANSI_COLORS_DISABLED') is None:
            fmt_str = '\033[%dm%s'
            if color is not None:
                text = fmt_str % (COLORS[color], text)
            ...
        return text
    ]]
    The colour is looked up in the dictionary [COLORS]; a name that is not
    a key of it is a KeyError ([None] below).  The escape codes put around
    the text are left out. *)

Definition COLORS : list string :=
  ["grey"; "red"; "green"; "yellow"; "blue"; "magenta"; "cyan"; "white"].

Definition colored (text color : string) (w : World) : option string :=
  if ansi_colors_disabled w then Some text
  else if existsb (String.eqb color) COLORS then Some text
  else None.

(** [print(colored(text, color))]; [return], as the last statement of a
    branch of [main]. *)
Definition print_colored_return (text color : string) (w : World)
    : Exit * World :=
  match colored text color w with
  | Some _ => (Returned, w)
  | None => (Raised "KeyError", w)
  end.

(** ** Exit of the interpreter *)

(** The process: its world, the callbacks registered with [atexit] (most
    recent first, the order they are run in) and the SIGINT handler. *)
Record Process := mkProcess {
  world : World;
  atexit_callbacks : list (World -> World);
  sigint_handler : option (Z -> World -> Exit * World)
}.

Definition on_world (f : World -> World) (p : Process) : Process :=
  mkProcess (f (world p)) (atexit_callbacks p) (sigint_handler p).

Definition atexit_register (cb : World -> World) (p : Process) : Process :=
  mkProcess (world p) (cb :: atexit_callbacks p) (sigint_handler p).

Definition signal_signal (h : Z -> World -> Exit * World) (p : Process)
    : Process :=
  mkProcess (world p) (atexit_callbacks p) (Some h).

Definition SIGINT : Z := 2.

(** Termination of the interpreter, after a return of the script, a
    [SystemExit] or an uncaught exception: the atexit callbacks run, then
    the status is reported. *)
Definition interpreter_exit (e : Exit) (p : Process) : Z * World :=
  (exit_status e, fold_left (fun w cb => cb w) (atexit_callbacks p) (world p)).

(** An interrupt that reaches the process in state [p]: the installed
    handler runs on that state; what it raises terminates the interpreter.
    Without a handler the KeyboardInterrupt is uncaught, status 1. *)
Definition deliver_sigint (p : Process) : Z * World :=
  match sigint_handler p with
  | Some handler =>
      let '(e, w) := handler SIGINT (world p) in
      interpreter_exit e (on_world (fun _ => w) p)
  | None => interpreter_exit (SysExit 1) p
  end.

Definition signal_handler (signum : Z) (w : World) : Exit * World :=
  let w := Transient_delete "SENTINEL_RUNNING" w in
  (SysExit 1, w).

Definition cleanup (mutex_key : string) (w : World) : World :=
  Transient_delete mutex_key w.

(** ** Reading a trace *)

(** The event is a vote with that signal and outcome. *)
Definition is_decision (signal : VoteSignals.t) (outcome : VoteOutcomes.t)
    (e : Event) : bool :=
  match e with
  | EVote _ s o => VoteSignals.eqb s signal && VoteOutcomes.eqb o outcome
  | _ => false
  end.

Definition is_submit (e : Event) : bool :=
  match e with ESubmit _ => true | _ => false end.

Definition is_vote (e : Event) : bool :=
  match e with EVote _ _ _ => true | _ => false end.

(** The objects the votes of a trace are cast on, one entry for each vote,
    in the order of the votes. *)
Definition voted_objects (evs : list Event) : list GovObj :=
  flat_map (fun e => match e with EVote o _ _ => [o] | _ => [] end) evs.

(** The event is a vote on, or the submission of, a watchdog. *)
Definition concerns_watchdog (e : Event) : bool :=
  match e with
  | EVote o _ _ => is_watchdog o
  | ESubmit o => is_watchdog o
  | _ => false
  end.

(** The world apart from the vote table and the trace. *)
Definition same_store (w w' : World) : Prop :=
  clock w' = clock w /\ watchdogs w' = watchdogs w
  /\ proposals w' = proposals w /\ superblocks w' = superblocks w
  /\ transients w' = transients w /\ next_run w' = next_run w
  /\ daemon w' = daemon w /\ argv_bypass w' = argv_bypass w.

(** The order [sorted] sorts by: the keys are in byte-wise order. *)
Definition key_le {A : Type} (key : A -> string) (x y : A) : Prop :=
  hash_leb (key x) (key y) = true.

(** Neither a ping nor a call on a watchdog. *)
Definition off_watchdog (e : Event) : Prop :=
  concerns_watchdog e = false /\ e <> EPing.

(** ** lib/sucr_config.py

    Text is a [string]; a file system maps a file name to the text of the
    file, [None] when [io.open] raises IOError.  The class of characters
    that the regular expression engine takes for white space, the
    conversion [int] of a string and the port given on the command line
    ([config.get_args], not part of the sources at hand) are parameters of
    the functions that use them. *)

Definition newline : ascii := "010"%char.

(** A value of the credentials dictionary: a string of the file, or a port
    number. *)
Inductive PyVal :=
| PStr (s : string)
| PInt (n : Z).

(** Truth value of [args.rpc_port]: [None], [0] and the empty string do not
    count. *)
Definition py_truthy (v : option PyVal) : bool :=
  match v with
  | None => false
  | Some (PStr s) => negb (String.eqb s "")
  | Some (PInt n) => negb (n =? 0)
  end.

(** [for line in f]: the lines of the text, each with its line end. *)
Fixpoint lines_of (s : string) : list string :=
  match s with
  | EmptyString => []
  | String c r =>
      if Ascii.eqb c newline then String c EmptyString :: lines_of r
      else
        match lines_of r with
        | [] => [String c EmptyString]
        | l :: ls => String c l :: ls
        end
  end.

(** [''.join(lines)] *)
Definition join (lines : list string) : string :=
  fold_right String.append EmptyString lines.

(** What remains of [s] after the literal [p], when [s] begins with it. *)
Fixpoint strip_prefix (p s : string) : option string :=
  match p with
  | EmptyString => Some s
  | String a p' =>
      match s with
      | EmptyString => None
      | String b s' => if Ascii.eqb a b then strip_prefix p' s' else None
      end
  end.

(** [(.*?)$] under re.MULTILINE: the text up to the end of its line. *)
Fixpoint until_eol (s : string) : string :=
  match s with
  | EmptyString => EmptyString
  | String c r =>
      if Ascii.eqb c newline then EmptyString else String c (until_eol r)
  end.

(** [(.*?)=]: the text up to the first equals sign of the line, and what
    follows the sign; [None] when the line has no equals sign. *)
Fixpoint until_equals (s : string) : option (string * string) :=
  match s with
  | EmptyString => None
  | String c r =>
      if Ascii.eqb c "="%char then Some (EmptyString, r)
      else if Ascii.eqb c newline then None
      else
        match until_equals r with
        | Some (k, rest) => Some (String c k, rest)
        | None => None
        end
  end.

(** [re.findall]: the matches of a pattern, from left to right, without
    overlap.  [match_at s] is the match that starts where [s] starts, with
    its length; [skip] characters of the last match are still to be passed. *)
Fixpoint findall {A : Type} (match_at : string -> option (A * nat))
    (skip : nat) (s : string) : list A :=
  match s with
  | EmptyString =>
      match skip, match_at EmptyString with
      | O, Some (x, _) => [x]
      | _, _ => []
      end
  | String _ r =>
      match skip with
      | S k => findall match_at k r
      | O =>
          match match_at s with
          | Some (x, len) => x :: findall match_at (Nat.pred len) r
          | None => findall match_at 0 r
          end
      end
  end.

(** [{key: value for (key, value) in match}]: a later pair wins. *)
Definition dict_of {V : Type} (pairs : list (string * V)) : gmap string V :=
  fold_left (fun m kv => <[fst kv := snd kv]> m) pairs ∅.

(** [c in s] *)
Fixpoint has_char (c : ascii) (s : string) : bool :=
  match s with
  | EmptyString => false
  | String d r => Ascii.eqb d c || has_char c r
  end.

(** A line that ends with its line end, and one that lacks it (the last
    line of a text that does not end with a line end). *)
Fixpoint complete_line (s : string) : bool :=
  match s with
  | EmptyString => false
  | String c r =>
      if Ascii.eqb c newline then String.eqb r EmptyString
      else complete_line r
  end.

Definition open_line (s : string) : bool :=
  negb (String.eqb s EmptyString) && negb (has_char newline s).

(** The lines of a text: all complete, but for the last, which may be
    open. *)
Fixpoint well_split (ls : list string) : Prop :=
  match ls with
  | [] => True
  | [l] => complete_line l = true \/ open_line l = true
  | l :: ls' => complete_line l = true /\ well_split ls'
  end.

Module SucreConfig.

(** [re.match('^\s*#', line)] *)
Fixpoint is_comment (is_space : ascii -> bool) (line : string) : bool :=
  match line with
  | EmptyString => false
  | String c r =>
      if Ascii.eqb c "#"%char then true
      else if is_space c then is_comment is_space r
      else false
  end.

(** read sucr.conf config but skip commented lines *)
Definition slurp_config_file (is_space : ascii -> bool)
    (fs : string -> option string) (filename : string) : option string :=
  match fs filename with
  | None => None
  | Some text =>
      let lines :=
        List.filter (fun line => negb (is_comment is_space line))
                    (lines_of text) in
      (* data is sucr.conf without commented lines *)
      Some (join lines)
  end.

(** [rpc(user|password|port)=(.*?)$] at the start of [s]. *)
Definition rpc_match (s : string) : option ((string * string) * nat) :=
  match strip_prefix "rpc" s with
  | None => None
  | Some r =>
      let alt (name : string) :=
        match strip_prefix name r with
        | None => None
        | Some r1 =>
            match strip_prefix "=" r1 with
            | None => None
            | Some r2 =>
                let value := until_eol r2 in
                Some ((name, value),
                      (3 + String.length name + 1 + String.length value)%nat)
            end
        end in
      match alt "user" with
      | Some m => Some m
      | None =>
          match alt "password" with
          | Some m => Some m
          | None => alt "port"
          end
      end
  end.

(** get rpc info from sucr.conf; [None] stands for the ValueError of [int]. *)
Definition get_rpc_creds (py_int : string -> option Z)
    (args_rpc_port : option PyVal) (data network : string)
    : option (gmap string PyVal) :=
  let match_ := findall rpc_match 0 data in
  let creds := dict_of (map (fun kv => (fst kv, PStr (snd kv))) match_) in
  if py_truthy args_rpc_port then
    match args_rpc_port with
    | Some port => Some (<["port" := port]> creds)
    | None => Some creds    (* None is not true *)
    end
  else
    (* standard Sucre defaults... *)
    let default_port :=
      if String.eqb network "mainnet" then 9335 else 19335 in
    (* use default port for network if not specified in sucr.conf *)
    let creds :=
      match creds !! "port" with
      | None => <["port" := PInt default_port]> creds
      | Some _ => creds
      end in
    (* convert to an int if taken from sucr.conf *)
    match creds !! "port" with
    | Some (PInt n) => Some (<["port" := PInt n]> creds)
    | Some (PStr s) =>
        match py_int s with
        | Some n => Some (<["port" := PInt n]> creds)
        | None => None
        end
    | None => None
    end.

(** [(.*?)=(.*?)$] at the start of [s]. *)
Definition token_match (s : string) : option ((string * string) * nat) :=
  match until_equals s with
  | None => None
  | Some (key, rest) =>
      let value := until_eol rest in
      Some ((key, value),
            (String.length key + 1 + String.length value)%nat)
  end.

Definition tokenize (is_space : ascii -> bool)
    (fs : string -> option string) (filename : string) : gmap string string :=
  match slurp_config_file is_space fs filename with
  | Some data => dict_of (findall token_match 0 data)
  | None => ∅    (* except IOError: tokens stays {} *)
  end.

End SucreConfig.

(** ** Sample data

    A daemon, stores and a process on which the statements below are
    instantiated. *)

Definition ex_daemon (ping : bool) : SucreDaemon :=
  mkDaemon true true true ping 100 true 10 1000
           (fun _ => 500) (fun h => h * 150) true 16616 3600 [].

Definition ex_world (wds : list Watchdog) (ps : list Proposal)
    (sbs : list Superblock) (vs : list Vote) (ping : bool) : World :=
  mkWorld 10000 wds ps sbs vs ∅ None (ex_daemon ping) false false [].

(** A reachable, synced node that is not a masternode. *)
Definition ex_not_masternode : World :=
  mkWorld 10000 [] [] [] [] ∅ None
          (mkDaemon true true false false 100 true 10 1000
                    (fun _ => 500) (fun h => h * 150) true 16616 3600 [])
          false false [].

Definition wd_A : Watchdog := mkWatchdog "aa" 9000.
Definition wd_B : Watchdog := mkWatchdog "bb" 9500.
Definition wd_C : Watchdog := mkWatchdog "11" 9900.
Definition wd_old : Watchdog := mkWatchdog "dd" 1000.

Definition ex_watch : World :=
  ex_world [wd_A; wd_B; wd_C; wd_old] [] [] [] false.

Definition p_old : Proposal := mkProposal "p1" 100 5000 10.
Definition p_live : Proposal := mkProposal "p2" 9000 20000 10.

Definition sb_1 : Superblock := mkSuperblock "ff01" 100 "H" [("payee", 5)].
Definition sb_2 : Superblock := mkSuperblock "aa02" 100 "H" [("payee", 5)].
Definition sb_other : Superblock := mkSuperblock "cc03" 100 "G" [].
Definition sb_cand : Superblock := mkSuperblock "" 100 "H" [("payee", 5)].

Definition ex_conf : string := "sucr.conf".
Definition ex_ranked (ps : list Proposal) (quorum budget : Z) : list Proposal :=
  ps.
Definition ex_builder (ps : list Proposal) (ebh budget epoch : Z)
    : option Superblock :=
  Some sb_cand.
Definition ex_cycle_length (blocks : Z) : Z := blocks * 150 / 1000.
Definition ex_jitter : nat := 7%nat.
Definition ex_interval : Z := 600.

Definition ex_process (w : World) : Process := mkProcess w [] None.

Definition ex_space (c : ascii) : bool :=
  Ascii.eqb c " "%char || Ascii.eqb c "009"%char || Ascii.eqb c newline.
Definition ex_line (s : string) : string :=
  String.append s (String newline EmptyString).
Definition ex_text : string :=
  join [ex_line "# sucr.conf"; ex_line "rpcuser=alice";
        ex_line "  # rpcport=1"; ex_line "rpcpassword=s=t"; "testnet=1"].
Definition ex_fs (filename : string) : option string :=
  if String.eqb filename "sucr.conf" then Some ex_text else None.
Definition ex_int (s : string) : option Z :=
  if String.eqb s "8332" then Some 8332 else None.

Section Sentinel.

#[local] Set Default Proof Using "Type".

(** [config.sucr_conf]: the configuration the process points at. *)
Variable sucr_conf : string.

(** [Proposal.approved_and_ranked(proposal_quorum, next_superblock_max_budget)],
    [sucrlib.create_superblock] and [Superblock.hex_hash]: external
    collaborators, fixed at the boundary. *)
Variable approved_and_ranked : list Proposal -> Z -> Z -> list Proposal.
Variable create_superblock :
  list Proposal -> Z -> Z -> Z -> option Superblock.
Variable hex_hash : Superblock -> string.

(** The length of a superblock cycle of that many blocks, in the unit the
    proposal epochs are compared in. *)
Variable cycle_length : Z -> Z.

(** The jitter [Scheduler.delay] sleeps for, and the distance of the next
    permitted run. *)
Variable jitter : nat.
Variable schedule_interval : Z.

(** Modelled from the spec: [Scheduler.delay] of lib/scheduler.py blocks
    for a bounded random jitter. *)
Definition Scheduler_delay (w : World) : World :=
  set_clock (clock w + Z.of_nat jitter) w.

(** Modelled from the spec: [Scheduler.schedule_next_run] of
    lib/scheduler.py persists the next-window marker. *)
Definition Scheduler_schedule_next_run (w : World) : World :=
  set_next_run (Some (clock w + schedule_interval)) w.

(** Modelled from the spec: [Proposal.expired] of lib/models.py selects the
    proposals whose [end_epoch] is before [now - cycleLength]. *)
Definition Proposal_is_expired (superblockcycle : Z) (now : Z) (p : Proposal)
    : bool :=
  p_end_epoch p <? now - cycle_length superblockcycle.

Definition Proposal_expired (superblockcycle : Z) (w : World) : list Proposal :=
  List.filter (Proposal_is_expired superblockcycle (clock w)) (proposals w).

Definition prune_expired_proposals (sucrd : SucreDaemon) (w : World) : World :=
  (* vote delete for old proposals *)
  for_each (Proposal_expired (superblockcycle sucrd) w)
    (fun proposal =>
       vote (GProposal proposal) VoteSignals.delete VoteOutcomes.yes) w.

Definition attempt_superblock_creation (sucrd : SucreDaemon) (w : World)
    : World :=
  if negb (is_masternode sucrd) then w
  else
    let event_block_height := next_superblock_height sucrd in
    if Superblock_is_voted_funding event_block_height w then
      (* vote down any new SBs because we've already chosen a winner *)
      for_each (Superblock_at_height event_block_height w)
        (fun sb w =>
           if negb (voted_on (GSuperblock sb) VoteSignals.funding w)
           then vote (GSuperblock sb) VoteSignals.funding VoteOutcomes.no w
           else w) w
    else if negb (is_govobj_maturity_phase sucrd) then w
    else
      let proposals :=
        approved_and_ranked (proposals w) (governance_quorum sucrd)
                            (next_superblock_max_budget sucrd) in
      let budget_max :=
        get_superblock_budget_allocation sucrd event_block_height in
      let sb_epoch_time := block_height_to_epoch sucrd event_block_height in
      match create_superblock proposals event_block_height budget_max
                              sb_epoch_time with
      | None => w
      | Some sb =>
          (* find the deterministic SB w/highest object_hash in the DB *)
          match Superblock_find_highest_deterministic (hex_hash sb) w with
          | Some dbrec =>
              let w :=
                vote (GSuperblock dbrec) VoteSignals.funding VoteOutcomes.yes w in
              (* any other blocks which match the sb_hash are duplicates *)
              for_each (Superblock_where_sb_hash (hex_hash sb) w)
                (fun sb w =>
                   if negb (voted_on (GSuperblock sb) VoteSignals.funding w)
                   then vote (GSuperblock sb) VoteSignals.delete
                             VoteOutcomes.yes w
                   else w) w
          | None =>
              (* if we are the elected masternode... *)
              if we_are_the_winner sucrd then submit (GSuperblock sb) w
              else w
          end
      end.

Definition main (w : World) : Exit * World :=
  let sucrd := daemon w in
  let options_bypass := argv_bypass w in
  (* check sucrd connectivity *)
  if negb (is_sucrd_port_open sucrd) then
    print_colored_return
      "Cannot connect to sucrd. Please ensure sucrd is running and the JSONRPC port is open to Sentinel."
      "red" w
  (* check sucrd sync *)
  else if negb (is_synced sucrd) then
    print_colored_return
      "sucrd not synced with network! Awaiting full sync before running Sentinel."
      "yellow" w
  (* ensure valid masternode *)
  else if negb (is_masternode sucrd) then
    (* colored('yellow', "Invalid ..."): the message is passed as the colour *)
    print_colored_return
      "yellow" "Invalid Masternode Status, cannot continue." w
  else
    let w :=
      if options_bypass then Scheduler_clear_schedule w else w in
    if negb (Scheduler_is_run_time w) then (Returned, w)
    else
      let w := if negb options_bypass then Scheduler_delay w else w in
      (* running now, so remove the scheduled event *)
      let w := Scheduler_clear_schedule w in
      let w := perform_sucrd_object_sync sucrd w in
      let w :=
        if has_sentinel_ping sucrd then sentinel_ping sucrd w
        else watchdog_check sucrd w in
      (* vote to delete expired proposals *)
      let w := prune_expired_proposals sucrd w in
      (* create a Superblock if necessary *)
      let w := attempt_superblock_creation sucrd w in
      (* schedule the next run *)
      (Returned, Scheduler_schedule_next_run w).

Definition mutex_key : string := String.append "SENTINEL_RUNNING_" sucr_conf.

Definition entrypoint (p : Process) : Exit * Process :=
  let p := atexit_register (cleanup mutex_key) p in
  let p := signal_signal signal_handler p in
  (* assume that all processes expire after 'timeout_seconds' seconds *)
  let timeout_seconds := 90 in
  let is_running := Transient_get mutex_key (world p) in
  if is_true is_running then (SysExit 1, p)
  else
    let p :=
      on_world (Transient_set mutex_key (misc_now (world p)) timeout_seconds)
               p in
    (* locked to this instance -- perform main logic here *)
    let '(e, w) := main (world p) in
    let p := on_world (fun _ => w) p in
    match e with
    | Returned =>
        let p := on_world (Transient_delete mutex_key) p in
        (Returned, p)
    | _ => (e, p)      (* what [main] raised leaves [entrypoint] *)
    end.

(** [python bin/sentinel.py]: the script, then the interpreter's exit. *)
Definition run_script (p : Process) : Z * World :=
  let '(e, p) := entrypoint p in
  interpreter_exit e p.


(** The resolver reaches the search for a deterministic match with the
    candidate [cand]. *)
Definition reaches_match (sucrd : SucreDaemon) (w : World)
    (cand : Superblock) : Prop :=
  is_masternode sucrd = true
  /\ Superblock_is_voted_funding (next_superblock_height sucrd) w = false
  /\ is_govobj_maturity_phase sucrd = true
  /\ create_superblock
       (approved_and_ranked (proposals w) (governance_quorum sucrd)
                            (next_superblock_max_budget sucrd))
       (next_superblock_height sucrd)
       (get_superblock_budget_allocation sucrd (next_superblock_height sucrd))
       (block_height_to_epoch sucrd (next_superblock_height sucrd))
     = Some cand.


(** The parameters of the section are kept out of the proofs that do not
    state anything on them. *)
Ltac forget_params :=
  try clear schedule_interval; try clear jitter; try clear cycle_length;
  try clear hex_hash; try clear create_superblock;
  try clear approved_and_ranked; try clear sucr_conf.
Ltac arith := forget_params; lia.
Ltac cong := forget_params; congruence.
Ltac taut := forget_params; tauto.

(** ** Facts on lists, the ordering of hashes and [sorted] *)

Lemma skipn_length_app {A : Type} (l l' : list A) :
  skipn (length l) (l ++ l') = l'.
Proof. induction l as [|x l IH]; simpl; auto. Qed.

Lemma hash_lt_irrefl (a : string) : ~ String_as_OT.lt a a.
Proof. exact (@StrictOrder_Irreflexive _ _ String_as_OT.lt_strorder a). Qed.

Lemma hash_lt_trans (a b c : string) :
  String_as_OT.lt a b -> String_as_OT.lt b c -> String_as_OT.lt a c.
Proof.
  exact (@StrictOrder_Transitive _ _ String_as_OT.lt_strorder a b c).
Qed.

Lemma hash_leb_refl (a : string) : hash_leb a a = true.
Proof.
  unfold hash_leb.
  destruct (String_as_OT.compare_spec a a) as [_|Hlt|Hlt]; auto.
  exfalso. exact (hash_lt_irrefl a Hlt).
Qed.

Lemma hash_leb_total (a b : string) :
  hash_leb a b = true \/ hash_leb b a = true.
Proof.
  unfold hash_leb.
  destruct (String_as_OT.compare_spec a b) as [Heq|Hlt|Hgt]; auto.
  right.
  destruct (String_as_OT.compare_spec b a) as [_|_|Hlt]; auto.
  exfalso. exact (hash_lt_irrefl a (hash_lt_trans _ _ _ Hlt Hgt)).
Qed.

Lemma hash_leb_trans (a b c : string) :
  hash_leb a b = true -> hash_leb b c = true -> hash_leb a c = true.
Proof.
  unfold hash_leb. intros Hab Hbc.
  destruct (String_as_OT.compare_spec a c) as [_|_|Hca]; auto.
  exfalso.
  destruct (String_as_OT.compare_spec a b) as [Heq|Hlt|_]; try discriminate;
    destruct (String_as_OT.compare_spec b c) as [Heq'|Hlt'|_];
    try discriminate; unfold String_as_OT.eq in *; subst.
  - exact (hash_lt_irrefl _ Hca).
  - exact (hash_lt_irrefl c (hash_lt_trans _ _ _ Hca Hlt')).
  - exact (hash_lt_irrefl c (hash_lt_trans _ _ _ Hca Hlt)).
  - exact (hash_lt_irrefl a
             (hash_lt_trans _ _ _ Hlt (hash_lt_trans _ _ _ Hlt' Hca))).
Qed.

Lemma hash_leb_antisym (a b : string) :
  hash_leb a b = true -> hash_leb b a = true -> a = b.
Proof.
  unfold hash_leb. intros Hab Hba.
  destruct (String_as_OT.compare_spec a b) as [Heq|Hlt|_]; try discriminate;
    auto.
  destruct (String_as_OT.compare_spec b a) as [Heq|Hlt'|_]; try discriminate;
    auto.
  exfalso. exact (hash_lt_irrefl a (hash_lt_trans _ _ _ Hlt Hlt')).
Qed.

Section Sorting.
Context {A : Type} (key : A -> string).

Lemma insert_sorted_perm (x : A) (l : list A) :
  Permutation (insert_sorted key x l) (x :: l).
Proof.
  induction l as [|y l IH]; simpl; auto.
  destruct (hash_leb (key x) (key y)); auto.
  rewrite IH. apply perm_swap.
Qed.

Lemma sorted_perm (l : list A) : Permutation (sorted key l) l.
Proof.
  induction l as [|x l IH]; simpl; auto.
  rewrite insert_sorted_perm. auto.
Qed.

Lemma insert_sorted_ascending (x : A) (l : list A) :
  StronglySorted (key_le key) l -> StronglySorted (key_le key) (insert_sorted key x l).
Proof.
  induction 1 as [|y l Hl IH Hy]; simpl.
  - repeat constructor.
  - destruct (hash_leb (key x) (key y)) eqn:Hxy.
    + constructor; [constructor; assumption|].
      constructor; [exact Hxy|].
      eapply List.Forall_impl; [|exact Hy].
      intros z Hz. unfold key_le in *. eapply hash_leb_trans; eauto.
    + constructor; [exact IH|].
      rewrite insert_sorted_perm. constructor; [|exact Hy].
      destruct (hash_leb_total (key x) (key y)) as [H|H];
        [cong|exact H].
Qed.

Lemma sorted_ascending (l : list A) : StronglySorted (key_le key) (sorted key l).
Proof.
  induction l as [|x l IH]; simpl.
  - constructor.
  - apply insert_sorted_ascending, IH.
Qed.

Lemma ascending_last_greatest (l : list A) (x : A) :
  StronglySorted (key_le key) (l ++ [x]) -> Forall (fun y => key_le key y x) l.
Proof.
  induction l as [|y l IH]; simpl; intros H; [constructor|].
  inversion H as [|? ? Hs Hf]; subst.
  constructor; [|apply IH, Hs].
  rewrite List.Forall_forall in Hf. apply Hf, in_or_app. right. left. reflexivity.
Qed.

Lemma pop_snoc (l r : list A) (x : A) :
  pop l = Some (x, r) -> l = r ++ [x].
Proof.
  unfold pop. intros H.
  destruct (rev l) as [|y t] eqn:Hr; [discriminate|].
  injection H as -> <-.
  rewrite <- (rev_involutive l), Hr. reflexivity.
Qed.

Lemma pop_None (l : list A) : pop l = None -> l = [].
Proof.
  unfold pop. intros H.
  destruct (rev l) as [|y t] eqn:Hr; [|discriminate].
  rewrite <- (rev_involutive l), Hr. reflexivity.
Qed.

(** [sorted(l).pop()] on a non-empty list: the element popped is a
    greatest one, and with the rest it makes up [l]. *)
Lemma pop_sorted (l : list A) :
  l <> [] ->
  exists winner rest,
    pop (sorted key l) = Some (winner, rest)
    /\ Permutation l (winner :: rest)
    /\ (forall y, In y l -> hash_leb (key y) (key winner) = true).
Proof.
  intros Hne.
  destruct (pop (sorted key l)) as [[winner rest]|] eqn:Hpop.
  - exists winner, rest. split; [reflexivity|].
    apply pop_snoc in Hpop.
    assert (Hperm : Permutation l (winner :: rest)).
    { rewrite <- (sorted_perm l), Hpop.
      symmetry. apply Permutation_cons_append. }
    split; [exact Hperm|].
    intros y Hy.
    pose proof (sorted_ascending l) as Hs. rewrite Hpop in Hs.
    apply ascending_last_greatest in Hs. rewrite List.Forall_forall in Hs.
    apply (Permutation_in _ Hperm) in Hy. destruct Hy as [<-|Hy].
    + apply hash_leb_refl.
    + apply Hs, Hy.
  - apply pop_None in Hpop. exfalso. apply Hne.
    apply Permutation_nil. rewrite <- Hpop. apply sorted_perm.
Qed.

End Sorting.

(** ** What a vote changes *)

Lemma signal_eqb_eq (a b : VoteSignals.t) :
  VoteSignals.eqb a b = true <-> a = b.
Proof. destruct a, b; simpl; split; cong. Qed.

Lemma outcome_eqb_eq (a b : VoteOutcomes.t) :
  VoteOutcomes.eqb a b = true <-> a = b.
Proof. destruct a, b; simpl; split; cong. Qed.

Lemma emitted_app (pass : World -> World) (w : World) (evs : list Event) :
  trace (pass w) = trace w ++ evs -> emitted pass w = evs.
Proof.
  unfold emitted, final_world, Outcome_World. intros ->.
  apply skipn_length_app.
Qed.

Lemma emitted_app_exit (pass : World -> Exit * World) (w : World)
    (evs : list Event) :
  trace (snd (pass w)) = trace w ++ evs -> emitted pass w = evs.
Proof.
  unfold emitted, final_world, Outcome_Exit. intros ->.
  apply skipn_length_app.
Qed.

Lemma trace_vote o s out w :
  trace (vote o s out w) = trace w ++ [EVote o s out].
Proof. reflexivity. Qed.

Lemma same_store_refl w : same_store w w.
Proof. repeat split. Qed.

Lemma same_store_trans w1 w2 w3 :
  same_store w1 w2 -> same_store w2 w3 -> same_store w1 w3.
Proof.
  unfold same_store. intros H1 H2.
  decompose [and] H1. decompose [and] H2.
  repeat split; etransitivity; eassumption.
Qed.

Lemma same_store_vote o s out w : same_store w (vote o s out w).
Proof. repeat split. Qed.

Lemma same_store_submit o w : same_store w (submit o w).
Proof. repeat split. Qed.

(** A loop that votes the same decision on every element. *)
Lemma for_each_vote {A : Type} (inj : A -> GovObj) s out (l : list A) w :
  let w' := for_each l (fun x => vote (inj x) s out) w in
  trace w' = trace w ++ map (fun x => EVote (inj x) s out) l
  /\ same_store w w'.
Proof.
  revert w. induction l as [|x l IH]; intros w; simpl.
  - rewrite app_nil_r. split; [reflexivity|apply same_store_refl].
  - destruct (IH (vote (inj x) s out w)) as [Ht Hs].
    unfold for_each in *. simpl in *. split.
    + rewrite Ht, <- app_assoc. reflexivity.
    + eapply same_store_trans; [apply same_store_vote|exact Hs].
Qed.

Lemma Watchdog_active_same_store sucrd w w' :
  same_store w w' -> Watchdog_active sucrd w' = Watchdog_active sucrd w.
Proof.
  unfold Watchdog_active. intros (Hc & Hw & _). rewrite Hc, Hw. reflexivity.
Qed.

Lemma Watchdog_expired_In sucrd w wd :
  In wd (Watchdog_expired sucrd w) <->
  In wd (watchdogs w)
  /\ clock w - wd_created_at wd > watchdog_expiry_threshold sucrd.
Proof.
  unfold Watchdog_expired, Watchdog_is_expired. rewrite filter_In.
  rewrite Z.ltb_lt. split; intros [H1 H2]; (split; [exact H1|arith]).
Qed.

Lemma Watchdog_active_In sucrd w wd :
  In wd (Watchdog_active sucrd w) <->
  In wd (watchdogs w)
  /\ clock w - wd_created_at wd <= watchdog_expiry_threshold sucrd.
Proof.
  unfold Watchdog_active, Watchdog_is_expired. rewrite filter_In.
  rewrite negb_true_iff, Z.ltb_ge. reflexivity.
Qed.

(** The calls of one [watchdog_check] pass, branch by branch. *)
Lemma watchdog_check_calls sucrd w :
  let deletes l :=
    map (fun wd => EVote (GWatchdog wd) VoteSignals.delete VoteOutcomes.yes) l in
  trace (watchdog_check sucrd w) =
    trace w ++
    deletes (Watchdog_expired sucrd w) ++
    match pop (sorted wd_object_hash (Watchdog_active sucrd w)) with
    | None => [ESubmit (GWatchdog (Watchdog_new (clock w)))]
    | Some (winner, rest) =>
        EVote (GWatchdog winner) VoteSignals.valid VoteOutcomes.yes
        :: deletes rest
    end.
Proof.
  intros deletes. unfold watchdog_check.
  destruct (for_each_vote GWatchdog VoteSignals.delete VoteOutcomes.yes
              (Watchdog_expired sucrd w) w) as [Ht Hs].
  set (w1 := for_each (Watchdog_expired sucrd w) _ w) in *.
  rewrite (Watchdog_active_same_store sucrd w w1 Hs).
  destruct (Watchdog_active sucrd w) as [|a l] eqn:Hact.
  - simpl. rewrite Ht. destruct Hs as (-> & _).
    rewrite <- app_assoc. reflexivity.
  - replace (0 =? Z.of_nat (length (a :: l))) with false
      by (symmetry; apply Z.eqb_neq; simpl length; arith).
    destruct (pop_sorted wd_object_hash (a :: l)) as (wn & rest & Hpop & _);
      [discriminate|].
    rewrite Hpop.
    destruct (for_each_vote GWatchdog VoteSignals.delete VoteOutcomes.yes rest
                (vote (GWatchdog wn) VoteSignals.valid VoteOutcomes.yes w1))
      as [Ht' _].
    rewrite Ht', trace_vote, Ht. rewrite <- !app_assoc. reflexivity.
Qed.

Lemma watchdog_check_trace sucrd w :
  let deletes l :=
    map (fun wd => EVote (GWatchdog wd) VoteSignals.delete VoteOutcomes.yes) l in
  emitted (watchdog_check sucrd) w =
    deletes (Watchdog_expired sucrd w) ++
    match pop (sorted wd_object_hash (Watchdog_active sucrd w)) with
    | None => [ESubmit (GWatchdog (Watchdog_new (clock w)))]
    | Some (winner, rest) =>
        EVote (GWatchdog winner) VoteSignals.valid VoteOutcomes.yes
        :: deletes rest
    end.
Proof. intros deletes. apply emitted_app, watchdog_check_calls. Qed.

Lemma filter_decision_votes {A : Type} (inj : A -> GovObj) s out s' out'
    (l : list A) :
  (VoteSignals.eqb s' s && VoteOutcomes.eqb out' out) = false ->
  List.filter (is_decision s out) (map (fun x => EVote (inj x) s' out') l) = [].
Proof.
  intros H. induction l as [|x l IH]; simpl; [reflexivity|].
  rewrite H. exact IH.
Qed.

Lemma filter_submit_votes {A : Type} (inj : A -> GovObj) s out (l : list A) :
  List.filter is_submit (map (fun x => EVote (inj x) s out) l) = [].
Proof. induction l as [|x l IH]; simpl; auto. Qed.

(** ** Watchdog consensus *)

(** C1. One [watchdog_check] pass decides (Delete, Yes) for every watchdog
    whose age exceeds the expiry threshold; and when some watchdog is
    still active, the active ones split into a winner, whose hash is
    greatest for the byte-wise order, and losers: the only (Valid, Yes) of
    the pass goes to the winner, and every loser gets (Delete, Yes). *)
Theorem watchdog_check_elects_highest_hash (sucrd : SucreDaemon) (w : World) :
  (forall wd, In wd (watchdogs w) ->
     clock w - wd_created_at wd > watchdog_expiry_threshold sucrd ->
     In (EVote (GWatchdog wd) VoteSignals.delete VoteOutcomes.yes)
        (emitted (watchdog_check sucrd) w))
  /\ (Watchdog_active sucrd w <> [] ->
      exists winner losers,
        Permutation (Watchdog_active sucrd w) (winner :: losers)
        /\ (forall wd, In wd (Watchdog_active sucrd w) ->
              hash_leb (wd_object_hash wd) (wd_object_hash winner) = true)
        /\ List.filter (is_decision VoteSignals.valid VoteOutcomes.yes)
                       (emitted (watchdog_check sucrd) w)
           = [EVote (GWatchdog winner) VoteSignals.valid VoteOutcomes.yes]
        /\ (forall wd, In wd losers ->
              In (EVote (GWatchdog wd) VoteSignals.delete VoteOutcomes.yes)
                 (emitted (watchdog_check sucrd) w))).
Proof.
  rewrite watchdog_check_trace. split.
  - intros wd Hin Hage. apply in_or_app. left.
    apply (in_map (fun wd => EVote (GWatchdog wd) _ _)).
    apply Watchdog_expired_In. auto.
  - intros Hne.
    destruct (pop_sorted wd_object_hash _ Hne)
      as (winner & rest & Hpop & Hperm & Hmax).
    exists winner, rest. rewrite Hpop.
    split; [exact Hperm|]. split; [exact Hmax|]. split.
    + rewrite List.filter_app. simpl.
      rewrite !(filter_decision_votes GWatchdog) by reflexivity.
      reflexivity.
    + intros wd Hin. apply in_or_app. right. right.
      apply (in_map (fun wd => EVote (GWatchdog wd) _ _)). exact Hin.
Qed.

(** C5. When no watchdog is active, the pass, after the deletions of the
    expired ones, makes exactly one call: the submission of a new watchdog
    whose [created_at] is the current time; it casts no vote there. *)
Theorem watchdog_check_seeds_when_none_active (sucrd : SucreDaemon)
    (w : World) :
  Watchdog_active sucrd w = [] ->
  emitted (watchdog_check sucrd) w =
    map (fun wd => EVote (GWatchdog wd) VoteSignals.delete VoteOutcomes.yes)
        (Watchdog_expired sucrd w)
    ++ [ESubmit (GWatchdog (Watchdog_new (clock w)))]
  /\ wd_created_at (Watchdog_new (clock w)) = clock w
  /\ List.filter is_submit (emitted (watchdog_check sucrd) w)
     = [ESubmit (GWatchdog (Watchdog_new (clock w)))]
  /\ (forall o s out,
        In (EVote o s out) (emitted (watchdog_check sucrd) w) ->
        exists wd, o = GWatchdog wd /\ In wd (Watchdog_expired sucrd w)).
Proof.
  intros Hnone. rewrite watchdog_check_trace, Hnone. simpl.
  split; [reflexivity|]. split; [reflexivity|]. split.
  - rewrite List.filter_app, (filter_submit_votes GWatchdog). reflexivity.
  - intros o s out Hin. apply in_app_or in Hin.
    destruct Hin as [Hin|[Hin|[]]]; [|discriminate].
    apply in_map_iff in Hin. destruct Hin as (wd & Heq & Hwd).
    injection Heq as <- _ _. eauto.
Qed.

(** ** Proposal pruning *)

Lemma prune_expired_proposals_trace sucrd w :
  emitted (prune_expired_proposals sucrd) w =
    map (fun p => EVote (GProposal p) VoteSignals.delete VoteOutcomes.yes)
        (Proposal_expired (superblockcycle sucrd) w).
Proof.
  apply emitted_app. unfold prune_expired_proposals.
  apply (for_each_vote GProposal).
Qed.

(** C6. The pruning pass decides (Delete, Yes) for every stored proposal
    whose [end_epoch] is before the current time minus the cycle length,
    and makes no decision on a proposal whose [end_epoch] is not. *)
Theorem prune_expired_proposals_decisions (sucrd : SucreDaemon) (w : World) :
  (forall p, In p (proposals w) ->
     p_end_epoch p < clock w - cycle_length (superblockcycle sucrd) ->
     In (EVote (GProposal p) VoteSignals.delete VoteOutcomes.yes)
        (emitted (prune_expired_proposals sucrd) w))
  /\ (forall p signal outcome,
        clock w - cycle_length (superblockcycle sucrd) <= p_end_epoch p ->
        ~ In (EVote (GProposal p) signal outcome)
             (emitted (prune_expired_proposals sucrd) w)).
Proof.
  rewrite prune_expired_proposals_trace. split.
  - intros p Hin Hold.
    apply (in_map (fun p => EVote (GProposal p) _ _)).
    apply filter_In. split; [exact Hin|].
    unfold Proposal_is_expired. apply Z.ltb_lt. exact Hold.
  - intros p signal outcome Hin Hev.
    apply in_map_iff in Hev. destruct Hev as (q & Heq & Hq).
    injection Heq as -> _ _.
    apply filter_In in Hq. destruct Hq as [_ Hq].
    unfold Proposal_is_expired in Hq. apply Z.ltb_lt in Hq. arith.
Qed.

(** ** Superblock consensus *)

Lemma existsb_filter_keep {A : Type} (f g : A -> bool) (l : list A) :
  (forall x, f x = true -> g x = true) ->
  existsb f (List.filter g l) = existsb f l.
Proof.
  intros H. induction l as [|x l IH]; simpl; [reflexivity|].
  destruct (g x) eqn:Hg; simpl.
  - rewrite IH. reflexivity.
  - destruct (f x) eqn:Hf; [|exact IH].
    apply H in Hf. cong.
Qed.

(** A vote answers [voted_on] for its own object and signal, and leaves
    the answer for every other pair as it was. *)
Lemma signal_eqb_sym (a b : VoteSignals.t) :
  VoteSignals.eqb a b = VoteSignals.eqb b a.
Proof. destruct a, b; reflexivity. Qed.

Lemma voted_on_vote o s o' s' out w :
  voted_on o s (vote o' s' out w) =
    (String.eqb (object_hash o') (object_hash o) && VoteSignals.eqb s' s)
    || voted_on o s w.
Proof.
  unfold voted_on, vote. simpl votes.
  generalize (object_hash o) (object_hash o'). intros h h'.
  cbn [existsb]. unfold same_ballot at 1. cbn [vote_object_hash vote_signal].
  destruct (String.eqb h' h && VoteSignals.eqb s' s) eqn:Hsame;
    [reflexivity|].
  cbn [orb]. apply existsb_filter_keep. intros v Hv.
  unfold same_ballot in *.
  apply andb_true_iff in Hv. destruct Hv as [Hh Hs].
  apply String.eqb_eq in Hh. apply signal_eqb_eq in Hs.
  rewrite Hh, Hs, String.eqb_sym, signal_eqb_sym, Hsame. reflexivity.
Qed.

Lemma signal_eqb_neq (a b : VoteSignals.t) :
  a <> b -> VoteSignals.eqb a b = false.
Proof. destruct a, b; simpl; cong. Qed.

(** The loop [for sb in l: if not sb.voted_on(signal=sig): sb.vote(sig',
    out)]: the objects it votes on are taken from [l], none of them was
    voted on [sig] when the loop began; when [sig'] is another signal than
    [sig], they are exactly those of [l] not voted on [sig]. *)
Lemma cond_vote_loop sig sig' out (l : list Superblock) w0 :
  let body := fun sb w =>
    if negb (voted_on (GSuperblock sb) sig w)
    then vote (GSuperblock sb) sig' out w else w in
  exists chosen,
    trace (for_each l body w0) =
      trace w0 ++ map (fun sb => EVote (GSuperblock sb) sig' out) chosen
    /\ same_store w0 (for_each l body w0)
    /\ (forall sb, In sb chosen ->
          In sb l /\ voted_on (GSuperblock sb) sig w0 = false)
    /\ (sig' <> sig ->
        chosen =
          List.filter (fun sb => negb (voted_on (GSuperblock sb) sig w0)) l).
Proof.
  intros body. revert w0. induction l as [|x l IH]; intros w0.
  - exists []. simpl. rewrite app_nil_r.
    split; [reflexivity|]. split; [apply same_store_refl|].
    split; [intros ? []|reflexivity].
  - change (for_each (x :: l) body w0) with (for_each l body (body x w0)).
    assert (Hb : body x w0 =
                 if negb (voted_on (GSuperblock x) sig w0)
                 then vote (GSuperblock x) sig' out w0 else w0)
      by reflexivity.
    rewrite Hb. clear Hb.
    destruct (voted_on (GSuperblock x) sig w0) eqn:Hx; cbn [negb].
    + destruct (IH w0) as (chosen & Ht & Hs & Hin & Hf).
      exists chosen. split; [exact Ht|]. split; [exact Hs|]. split.
      * intros s0 Hs0. destruct (Hin s0 Hs0) as [H1 H2].
        split; [right; exact H1|exact H2].
      * intros Hne. cbn [List.filter]. rewrite Hx. cbn [negb].
        apply Hf, Hne.
    + destruct (IH (vote (GSuperblock x) sig' out w0))
        as (chosen & Ht & Hs & Hin & Hf).
      exists (x :: chosen). split; [|split; [|split]].
      * rewrite Ht, trace_vote, <- app_assoc. reflexivity.
      * eapply same_store_trans; [apply same_store_vote|exact Hs].
      * intros s0 [<-|Hs0]; [split; [left; reflexivity|exact Hx]|].
        destruct (Hin s0 Hs0) as [Hl Hv]. split; [right; exact Hl|].
        rewrite voted_on_vote in Hv. apply orb_false_elim in Hv. taut.
      * intros Hne. cbn [List.filter]. rewrite Hx. cbn [negb].
        rewrite (Hf Hne). f_equal.
        apply List.filter_ext. intros s0. rewrite voted_on_vote.
        rewrite (signal_eqb_neq _ _ Hne), andb_false_r. reflexivity.
Qed.

Lemma Superblock_at_height_In ebh w sb :
  In sb (Superblock_at_height ebh w) <->
  In sb (superblocks w) /\ sb_event_block_height sb = ebh.
Proof.
  unfold Superblock_at_height. rewrite filter_In, Z.eqb_eq. reflexivity.
Qed.

(** C3. When this voter already holds a funding-Yes vote on a superblock at
    the next superblock height, the resolver only runs the vote-down loop
    (its result does not depend on the candidate builder): every call it
    makes is a (Funding, No) vote on a stored superblock at that height
    that was not yet voted on the funding signal, and nothing is
    submitted. *)
Theorem attempt_superblock_creation_already_voted (sucrd : SucreDaemon)
    (w : World) :
  Superblock_is_voted_funding (next_superblock_height sucrd) w = true ->
  attempt_superblock_creation sucrd w =
    (if is_masternode sucrd then
       for_each (Superblock_at_height (next_superblock_height sucrd) w)
         (fun sb w =>
            if negb (voted_on (GSuperblock sb) VoteSignals.funding w)
            then vote (GSuperblock sb) VoteSignals.funding VoteOutcomes.no w
            else w) w
     else w)
  /\ (forall e, In e (emitted (attempt_superblock_creation sucrd) w) ->
        exists sb,
          e = EVote (GSuperblock sb) VoteSignals.funding VoteOutcomes.no
          /\ In sb (superblocks w)
          /\ sb_event_block_height sb = next_superblock_height sucrd
          /\ voted_on (GSuperblock sb) VoteSignals.funding w = false)
  /\ List.filter is_submit (emitted (attempt_superblock_creation sucrd) w)
     = [].
Proof.
  intros Hvoted.
  assert (Heq : attempt_superblock_creation sucrd w =
    (if is_masternode sucrd then
       for_each (Superblock_at_height (next_superblock_height sucrd) w)
         (fun sb w =>
            if negb (voted_on (GSuperblock sb) VoteSignals.funding w)
            then vote (GSuperblock sb) VoteSignals.funding VoteOutcomes.no w
            else w) w
     else w)).
  { unfold attempt_superblock_creation.
    destruct (is_masternode sucrd); simpl; [|reflexivity].
    rewrite Hvoted. reflexivity. }
  split; [exact Heq|].
  destruct (cond_vote_loop VoteSignals.funding VoteSignals.funding
              VoteOutcomes.no
              (Superblock_at_height (next_superblock_height sucrd) w) w)
    as (chosen & Ht & _ & Hin & _).
  assert (Hev : exists chosen',
    emitted (attempt_superblock_creation sucrd) w =
      map (fun sb => EVote (GSuperblock sb) VoteSignals.funding
                       VoteOutcomes.no) chosen'
    /\ forall sb, In sb chosen' -> In sb chosen).
  { destruct (is_masternode sucrd).
    - exists chosen. split; [|auto].
      apply emitted_app. rewrite Heq. exact Ht.
    - exists []. split; [|intros ? []].
      apply emitted_app. rewrite Heq, app_nil_r. reflexivity. }
  destruct Hev as (chosen' & -> & Hsub). split.
  - intros e He. apply in_map_iff in He. destruct He as (sb & <- & Hsb).
    exists sb. split; [reflexivity|].
    destruct (Hin sb (Hsub sb Hsb)) as [Hh Hv].
    apply Superblock_at_height_In in Hh. taut.
  - apply (filter_submit_votes GSuperblock).
Qed.

Lemma Superblock_where_sb_hash_In h w sb :
  In sb (Superblock_where_sb_hash h w) <->
  In sb (superblocks w) /\ sb_sb_hash sb = h.
Proof.
  unfold Superblock_where_sb_hash. rewrite filter_In, String.eqb_eq.
  reflexivity.
Qed.

Lemma Superblock_where_sb_hash_same_store h w w' :
  same_store w w' ->
  Superblock_where_sb_hash h w' = Superblock_where_sb_hash h w.
Proof.
  unfold Superblock_where_sb_hash. intros (_ & _ & _ & -> & _). reflexivity.
Qed.

Lemma find_highest_deterministic_None h w :
  (forall sb, In sb (superblocks w) -> sb_sb_hash sb <> h) ->
  Superblock_find_highest_deterministic h w = None.
Proof.
  intros Hno. unfold Superblock_find_highest_deterministic.
  replace (Superblock_where_sb_hash h w) with (@nil Superblock);
    [reflexivity|].
  symmetry. unfold Superblock_where_sb_hash.
  induction (superblocks w) as [|x l IH]; simpl; [reflexivity|].
  destruct (String.eqb (sb_sb_hash x) h) eqn:E.
  - apply String.eqb_eq in E. exfalso. apply (Hno x); simpl; auto.
  - apply IH. intros sb Hsb. apply Hno. right. exact Hsb.
Qed.

Lemma find_highest_deterministic_Some h w rec :
  In rec (superblocks w) -> sb_sb_hash rec = h ->
  exists dbrec,
    Superblock_find_highest_deterministic h w = Some dbrec
    /\ In dbrec (superblocks w) /\ sb_sb_hash dbrec = h
    /\ (forall sb, In sb (superblocks w) -> sb_sb_hash sb = h ->
          hash_leb (sb_object_hash sb) (sb_object_hash dbrec) = true).
Proof.
  intros Hin Hh.
  assert (Hne : Superblock_where_sb_hash h w <> []).
  { intros E.
    pose proof (proj2 (Superblock_where_sb_hash_In h w rec) (conj Hin Hh))
      as H.
    rewrite E in H. destruct H. }
  destruct (pop_sorted sb_object_hash _ Hne)
    as (dbrec & rest & Hpop & Hperm & Hmax).
  exists dbrec. unfold Superblock_find_highest_deterministic.
  rewrite Hpop. split; [reflexivity|].
  assert (Hd : In dbrec (Superblock_where_sb_hash h w)).
  { apply (Permutation_in _ (Permutation_sym Hperm)). left. reflexivity. }
  apply Superblock_where_sb_hash_In in Hd. destruct Hd as [Hd1 Hd2].
  repeat split; auto.
  intros sb Hs1 Hs2. apply Hmax. apply Superblock_where_sb_hash_In. auto.
Qed.

Lemma attempt_superblock_creation_at_match sucrd w cand :
  reaches_match sucrd w cand ->
  attempt_superblock_creation sucrd w =
    match Superblock_find_highest_deterministic (hex_hash cand) w with
    | Some dbrec =>
        let w :=
          vote (GSuperblock dbrec) VoteSignals.funding VoteOutcomes.yes w in
        for_each (Superblock_where_sb_hash (hex_hash cand) w)
          (fun sb w =>
             if negb (voted_on (GSuperblock sb) VoteSignals.funding w)
             then vote (GSuperblock sb) VoteSignals.delete VoteOutcomes.yes w
             else w) w
    | None =>
        if we_are_the_winner sucrd then submit (GSuperblock cand) w else w
    end.
Proof.
  intros (Hmn & Hnv & Hmat & Hcand). unfold attempt_superblock_creation.
  rewrite Hmn, Hnv, Hmat. simpl. rewrite Hcand. reflexivity.
Qed.

(** C2. When the store holds a superblock whose [sb_hash] is the hash of
    the candidate, the resolver votes (Funding, Yes) on one such record
    (the one with the highest [object_hash]) and on no other object, votes
    (Delete, Yes) on every other stored record with that [sb_hash] that
    was not yet voted on the funding signal, and makes no further call: in
    particular it submits nothing. *)
Theorem attempt_superblock_creation_deterministic_match
    (sucrd : SucreDaemon) (w : World) (cand rec : Superblock) :
  reaches_match sucrd w cand ->
  In rec (superblocks w) -> sb_sb_hash rec = hex_hash cand ->
  exists dbrec,
    In dbrec (superblocks w) /\ sb_sb_hash dbrec = hex_hash cand
    /\ emitted (attempt_superblock_creation sucrd) w =
         EVote (GSuperblock dbrec) VoteSignals.funding VoteOutcomes.yes
         :: map (fun sb => EVote (GSuperblock sb) VoteSignals.delete
                             VoteOutcomes.yes)
                (List.filter
                   (fun sb =>
                      negb (String.eqb (sb_object_hash dbrec)
                                       (sb_object_hash sb))
                      && negb (voted_on (GSuperblock sb)
                                        VoteSignals.funding w))
                   (Superblock_where_sb_hash (hex_hash cand) w))
    /\ List.filter (is_decision VoteSignals.funding VoteOutcomes.yes)
                   (emitted (attempt_superblock_creation sucrd) w)
       = [EVote (GSuperblock dbrec) VoteSignals.funding VoteOutcomes.yes]
    /\ (forall sb, In sb (superblocks w) ->
          sb_sb_hash sb = hex_hash cand ->
          sb_object_hash sb <> sb_object_hash dbrec ->
          voted_on (GSuperblock sb) VoteSignals.funding w = false ->
          In (EVote (GSuperblock sb) VoteSignals.delete VoteOutcomes.yes)
             (emitted (attempt_superblock_creation sucrd) w))
    /\ List.filter is_submit (emitted (attempt_superblock_creation sucrd) w)
       = [].
Proof.
  intros Hreach Hin Hh.
  destruct (find_highest_deterministic_Some _ w rec Hin Hh)
    as (dbrec & Hfind & Hd1 & Hd2 & _).
  exists dbrec. split; [exact Hd1|]. split; [exact Hd2|].
  set (w1 := vote (GSuperblock dbrec) VoteSignals.funding VoteOutcomes.yes w).
  destruct (cond_vote_loop VoteSignals.funding VoteSignals.delete
              VoteOutcomes.yes
              (Superblock_where_sb_hash (hex_hash cand) w1) w1)
    as (chosen & Ht & _ & _ & Hf).
  specialize (Hf ltac:(discriminate)).
  rewrite (Superblock_where_sb_hash_same_store _ w w1) in Hf, Ht
    by apply same_store_vote.
  assert (Hch : chosen =
    List.filter
      (fun sb =>
         negb (String.eqb (sb_object_hash dbrec) (sb_object_hash sb))
         && negb (voted_on (GSuperblock sb) VoteSignals.funding w))
      (Superblock_where_sb_hash (hex_hash cand) w)).
  { rewrite Hf. apply List.filter_ext. intros sb. unfold w1.
    rewrite voted_on_vote. simpl. rewrite andb_true_r, negb_orb.
    reflexivity. }
  assert (Hem : emitted (attempt_superblock_creation sucrd) w =
    EVote (GSuperblock dbrec) VoteSignals.funding VoteOutcomes.yes
    :: map (fun sb => EVote (GSuperblock sb) VoteSignals.delete
                        VoteOutcomes.yes) chosen).
  { apply emitted_app.
    rewrite (attempt_superblock_creation_at_match _ _ _ Hreach), Hfind.
    cbv zeta. fold w1.
    rewrite (Superblock_where_sb_hash_same_store _ w w1)
      by apply same_store_vote.
    rewrite Ht. unfold w1. rewrite trace_vote, <- app_assoc. reflexivity. }
  rewrite Hem, <- Hch. split; [reflexivity|]. split; [|split].
  - simpl. rewrite (filter_decision_votes GSuperblock) by reflexivity.
    reflexivity.
  - intros sb Hs1 Hs2 Hs3 Hs4. right.
    apply (in_map (fun sb => EVote (GSuperblock sb) _ _)).
    rewrite Hch. apply filter_In. split.
    + apply Superblock_where_sb_hash_In. auto.
    + rewrite Hs4. simpl. rewrite andb_true_r. apply negb_true_iff.
      apply String.eqb_neq. cong.
  - simpl. apply (filter_submit_votes GSuperblock).
Qed.

(** C4. When no stored superblock has the [sb_hash] of the candidate and
    this voter is the elected leader, the resolver makes exactly one call,
    the submission of the candidate; it casts no vote, so no funding-Yes
    vote on the candidate, and its vote table is unchanged. *)
Theorem attempt_superblock_creation_submits_candidate
    (sucrd : SucreDaemon) (w : World) (cand : Superblock) :
  reaches_match sucrd w cand ->
  (forall sb, In sb (superblocks w) -> sb_sb_hash sb <> hex_hash cand) ->
  we_are_the_winner sucrd = true ->
  emitted (attempt_superblock_creation sucrd) w = [ESubmit (GSuperblock cand)]
  /\ votes (attempt_superblock_creation sucrd w) = votes w
  /\ List.filter (is_decision VoteSignals.funding VoteOutcomes.yes)
                 (emitted (attempt_superblock_creation sucrd) w) = [].
Proof.
  intros Hreach Hno Hwin.
  pose proof (attempt_superblock_creation_at_match _ _ _ Hreach) as Heq.
  rewrite (find_highest_deterministic_None _ _ Hno), Hwin in Heq.
  assert (Hem : emitted (attempt_superblock_creation sucrd) w =
                [ESubmit (GSuperblock cand)]).
  { apply emitted_app. rewrite Heq. reflexivity. }
  rewrite Hem, Heq. repeat split.
Qed.

(** ** The cycle of [main] *)

Lemma off_watchdog_votes {A : Type} (inj : A -> GovObj) s out (l : list A) :
  (forall x, is_watchdog (inj x) = false) ->
  Forall off_watchdog (map (fun x => EVote (inj x) s out) l).
Proof.
  intros H. apply List.Forall_forall. intros e He.
  apply in_map_iff in He. destruct He as (x & <- & _).
  split; [apply H|discriminate].
Qed.

Lemma trace_Store_upsert o w : trace (Store_upsert o w) = trace w.
Proof. destruct o; reflexivity. Qed.

Lemma trace_for_each_upsert (l : list GovObj) w :
  trace (for_each l Store_upsert w) = trace w.
Proof.
  revert w. induction l as [|o l IH]; intros w; [reflexivity|].
  change (for_each (o :: l) Store_upsert w)
    with (for_each l Store_upsert (Store_upsert o w)).
  rewrite IH. apply trace_Store_upsert.
Qed.

Lemma perform_sucrd_object_sync_calls sucrd w :
  trace (perform_sucrd_object_sync sucrd w) = trace w ++ [ESync].
Proof.
  unfold perform_sucrd_object_sync, GovernanceObject_sync.
  rewrite trace_for_each_upsert. reflexivity.
Qed.

Lemma prune_expired_proposals_calls sucrd w :
  exists evs,
    trace (prune_expired_proposals sucrd w) = trace w ++ evs
    /\ Forall off_watchdog evs.
Proof.
  eexists. split.
  - unfold prune_expired_proposals. apply (for_each_vote GProposal).
  - apply (off_watchdog_votes GProposal). reflexivity.
Qed.

Lemma attempt_superblock_creation_calls sucrd w :
  exists evs,
    trace (attempt_superblock_creation sucrd w) = trace w ++ evs
    /\ Forall off_watchdog evs.
Proof.
  assert (Hnil : exists evs, trace w = trace w ++ evs
                             /\ Forall off_watchdog evs).
  { exists []. rewrite app_nil_r. split; [reflexivity|constructor]. }
  unfold attempt_superblock_creation.
  destruct (is_masternode sucrd); simpl; [|exact Hnil].
  destruct (Superblock_is_voted_funding _ w).
  { destruct (cond_vote_loop VoteSignals.funding VoteSignals.funding
                VoteOutcomes.no
                (Superblock_at_height (next_superblock_height sucrd) w) w)
      as (chosen & Ht & _).
    eexists. split; [exact Ht|].
    apply (off_watchdog_votes GSuperblock). reflexivity. }
  destruct (is_govobj_maturity_phase sucrd); simpl; [|exact Hnil].
  destruct (create_superblock _ _ _ _) as [cand|]; [|exact Hnil].
  destruct (Superblock_find_highest_deterministic _ w) as [dbrec|].
  - set (w1 := vote (GSuperblock dbrec) VoteSignals.funding
                    VoteOutcomes.yes w).
    destruct (cond_vote_loop VoteSignals.funding VoteSignals.delete
                VoteOutcomes.yes
                (Superblock_where_sb_hash (hex_hash cand) w1) w1)
      as (chosen & Ht & _).
    exists (EVote (GSuperblock dbrec) VoteSignals.funding VoteOutcomes.yes
            :: map (fun sb => EVote (GSuperblock sb) VoteSignals.delete
                                VoteOutcomes.yes) chosen).
    split.
    + rewrite Ht. unfold w1. rewrite trace_vote, <- app_assoc. reflexivity.
    + constructor; [split; [reflexivity|discriminate]|].
      apply (off_watchdog_votes GSuperblock). reflexivity.
  - destruct (we_are_the_winner sucrd); [|exact Hnil].
    exists [ESubmit (GSuperblock cand)]. split; [reflexivity|].
    constructor; [split; [reflexivity|discriminate]|constructor].
Qed.

Lemma off_watchdog_filter (evs : list Event) :
  Forall off_watchdog evs ->
  List.filter concerns_watchdog evs = [] /\ ~ In EPing evs.
Proof.
  induction 1 as [|e l [He1 He2] _ [IH1 IH2]]; simpl.
  - split; [reflexivity|taut].
  - rewrite He1. split; [exact IH1|]. intros [E|E]; [cong|taut].
Qed.

Lemma watchdog_check_no_ping sucrd w :
  ~ In EPing (emitted (watchdog_check sucrd) w).
Proof.
  rewrite watchdog_check_trace. intros H. apply in_app_or in H.
  destruct H as [H|H].
  - apply in_map_iff in H. destruct H as (? & E & _). discriminate.
  - destruct (pop _) as [[wn rest]|].
    + destruct H as [E|H]; [discriminate|].
      apply in_map_iff in H. destruct H as (? & E & _). discriminate.
    + destruct H as [E|[]]. discriminate.
Qed.

(** The gates of [main] before the cycle: connectivity, sync, masternode
    status and the scheduler window (after the clearing a bypass does). *)
Lemma main_past_gates (w : World) :
  is_sucrd_port_open (daemon w) = true ->
  is_synced (daemon w) = true ->
  is_masternode (daemon w) = true ->
  Scheduler_is_run_time
    (if argv_bypass w then Scheduler_clear_schedule w else w) = true ->
  main w =
    (Returned,
     Scheduler_schedule_next_run
       (attempt_superblock_creation (daemon w)
          (prune_expired_proposals (daemon w)
             ((if has_sentinel_ping (daemon w)
               then sentinel_ping (daemon w)
               else watchdog_check (daemon w))
                (perform_sucrd_object_sync (daemon w)
                   (Scheduler_clear_schedule
                      (if argv_bypass w then Scheduler_clear_schedule w
                       else Scheduler_delay w))))))).
Proof.
  intros Hopen Hsync Hmn Hrun. unfold main.
  rewrite Hopen, Hsync, Hmn. cbn [negb].
  destruct (argv_bypass w); rewrite Hrun; cbn [negb];
    destruct (has_sentinel_ping (daemon w)); reflexivity.
Qed.

Lemma watchdog_check_extends sucrd w :
  trace (watchdog_check sucrd w) =
    trace w ++ emitted (watchdog_check sucrd) w.
Proof.
  pose proof (watchdog_check_calls sucrd w) as H. cbv zeta in H.
  rewrite (emitted_app _ _ _ H). exact H.
Qed.

Lemma main_cycle_calls (w : World) :
  is_sucrd_port_open (daemon w) = true ->
  is_synced (daemon w) = true ->
  is_masternode (daemon w) = true ->
  Scheduler_is_run_time
    (if argv_bypass w then Scheduler_clear_schedule w else w) = true ->
  exists rest,
    emitted main w =
      ESync
      :: (if has_sentinel_ping (daemon w) then [EPing]
          else emitted (watchdog_check (daemon w))
                 (perform_sucrd_object_sync (daemon w)
                    (Scheduler_clear_schedule
                       (if argv_bypass w then Scheduler_clear_schedule w
                        else Scheduler_delay w))))
         ++ rest
    /\ Forall off_watchdog rest.
Proof.
  intros Hopen Hsync Hmn Hrun.
  pose proof (main_past_gates w Hopen Hsync Hmn Hrun) as Hmain.
  set (sucrd := daemon w) in *.
  set (w0 := Scheduler_clear_schedule
               (if argv_bypass w then Scheduler_clear_schedule w
                else Scheduler_delay w)).
  assert (H0 : trace w0 = trace w) by (unfold w0; destruct (argv_bypass w);
                                        reflexivity).
  set (w1 := perform_sucrd_object_sync sucrd w0).
  assert (H1 : trace w1 = trace w ++ [ESync]).
  { unfold w1. rewrite perform_sucrd_object_sync_calls, H0. reflexivity. }
  set (X := if has_sentinel_ping sucrd then [EPing]
            else emitted (watchdog_check sucrd) w1).
  set (w2 := (if has_sentinel_ping sucrd then sentinel_ping sucrd
              else watchdog_check sucrd) w1).
  assert (H2 : trace w2 = trace w1 ++ X).
  { unfold w2, X. destruct (has_sentinel_ping sucrd).
    - reflexivity.
    - apply watchdog_check_extends. }
  destruct (prune_expired_proposals_calls sucrd w2) as (evs1 & H3 & F1).
  destruct (attempt_superblock_creation_calls sucrd
              (prune_expired_proposals sucrd w2)) as (evs2 & H4 & F2).
  exists (evs1 ++ evs2). split.
  - apply emitted_app_exit. rewrite Hmain.
    change (trace (attempt_superblock_creation sucrd
                     (prune_expired_proposals sucrd w2)) =
            trace w ++ ESync :: X ++ evs1 ++ evs2).
    rewrite H4, H3, H2, H1. rewrite <- !app_assoc. reflexivity.
  - apply Forall_app. split; assumption.
Qed.

(** C10. In a cycle that passes the connectivity, sync, masternode and
    scheduler gates: when the daemon has sentinel ping, a ping is sent and no
    call of the cycle is a vote on, or the submission of, a watchdog; when
    it has not, no ping is sent and the calls of [watchdog_check], run on
    the synced store, follow the sync. *)
Theorem main_pings_or_checks_watchdogs (w : World) :
  is_sucrd_port_open (daemon w) = true ->
  is_synced (daemon w) = true ->
  is_masternode (daemon w) = true ->
  Scheduler_is_run_time
    (if argv_bypass w then Scheduler_clear_schedule w else w) = true ->
  (has_sentinel_ping (daemon w) = true ->
     In EPing (emitted main w)
     /\ List.filter concerns_watchdog (emitted main w) = [])
  /\ (has_sentinel_ping (daemon w) = false ->
      ~ In EPing (emitted main w)
      /\ exists rest,
           emitted main w =
             ESync
             :: emitted (watchdog_check (daemon w))
                  (perform_sucrd_object_sync (daemon w)
                     (Scheduler_clear_schedule
                        (if argv_bypass w then Scheduler_clear_schedule w
                         else Scheduler_delay w)))
                ++ rest
           /\ List.filter concerns_watchdog rest = []).
Proof.
  intros Hopen Hsync Hmn Hrun.
  destruct (main_cycle_calls w Hopen Hsync Hmn Hrun) as (rest & Hem & Hoff).
  destruct (off_watchdog_filter rest Hoff) as [Hnw Hnp].
  split; intros Hping; rewrite Hping in Hem; rewrite Hem.
  - split; [right; left; reflexivity|].
    cbn [List.filter concerns_watchdog app]. exact Hnw.
  - split.
    + intros [E|H]; [discriminate|].
      apply in_app_or in H. destruct H as [H|H]; [|exact (Hnp H)].
      exact (watchdog_check_no_ping _ _ H).
    + exists rest. split; [reflexivity|exact Hnw].
Qed.

(** ** The run lock and the exit of the process *)

Lemma entrypoint_lock_held (p : Process) :
  is_true (Transient_get mutex_key (world p)) = true ->
  entrypoint p =
    (SysExit 1,
     signal_signal signal_handler (atexit_register (cleanup mutex_key) p)).
Proof.
  intros H. unfold entrypoint.
  change (world (signal_signal signal_handler
                   (atexit_register (cleanup mutex_key) p)))
    with (world p).
  rewrite H. reflexivity.
Qed.

Lemma colored_red text w : colored text "red" w = Some text.
Proof. unfold colored. destruct (ansi_colors_disabled w); reflexivity. Qed.

Lemma colored_yellow text w : colored text "yellow" w = Some text.
Proof. unfold colored. destruct (ansi_colors_disabled w); reflexivity. Qed.

(** The exits of [main]: it returns, or the KeyError of its print escapes;
    it never exits on its own. *)
Lemma main_exit (w : World) :
  fst (main w) = Returned \/ fst (main w) = Raised "KeyError".
Proof.
  unfold main, print_colored_return.
  rewrite colored_red, colored_yellow.
  destruct (is_sucrd_port_open (daemon w)); [|left; reflexivity].
  destruct (is_synced (daemon w)); [|left; reflexivity].
  destruct (is_masternode (daemon w)); cbn [negb].
  - destruct (Scheduler_is_run_time _); left; reflexivity.
  - destruct (colored _ _ w); [left|right]; reflexivity.
Qed.

Lemma main_masternode_returns (w : World) :
  is_masternode (daemon w) = true -> fst (main w) = Returned.
Proof.
  intros Hmn. unfold main, print_colored_return.
  rewrite colored_red, colored_yellow, Hmn. cbn [negb].
  destruct (is_sucrd_port_open (daemon w)); [|reflexivity].
  destruct (is_synced (daemon w)); [|reflexivity].
  cbn [negb].
  destruct (Scheduler_is_run_time _); reflexivity.
Qed.

Lemma entrypoint_lock_free (p : Process) :
  is_true (Transient_get mutex_key (world p)) = false ->
  entrypoint p =
    (fst (main (Transient_set mutex_key (misc_now (world p)) 90 (world p))),
     on_world
       (fun _ =>
          match fst (main (Transient_set mutex_key (misc_now (world p)) 90
                             (world p))) with
          | Returned =>
              Transient_delete mutex_key
                (snd (main (Transient_set mutex_key (misc_now (world p)) 90
                              (world p))))
          | _ => snd (main (Transient_set mutex_key (misc_now (world p)) 90
                              (world p)))
          end)
       (signal_signal signal_handler
          (atexit_register (cleanup mutex_key) p))).
Proof.
  intros H. unfold entrypoint.
  change (world (signal_signal signal_handler
                   (atexit_register (cleanup mutex_key) p)))
    with (world p).
  rewrite H.
  change (world (on_world (Transient_set mutex_key (misc_now (world p)) 90)
                   (signal_signal signal_handler
                      (atexit_register (cleanup mutex_key) p))))
    with (Transient_set mutex_key (misc_now (world p)) 90 (world p)).
  destruct (main (Transient_set mutex_key (misc_now (world p)) 90 (world p)))
    as [e w']. destruct e; reflexivity.
Qed.

(** What [entrypoint] leaves registered, however it ends: its handler for
    SIGINT, and its callback before those that were there. *)
Lemma entrypoint_registrations (p : Process) :
  sigint_handler (snd (entrypoint p)) = Some signal_handler
  /\ atexit_callbacks (snd (entrypoint p)) =
       cleanup mutex_key :: atexit_callbacks p.
Proof.
  destruct (is_true (Transient_get mutex_key (world p))) eqn:Hl.
  - rewrite (entrypoint_lock_held p Hl). split; reflexivity.
  - rewrite (entrypoint_lock_free p Hl). split; reflexivity.
Qed.

Lemma Transient_get_set_argv_bypass key b w :
  Transient_get key (set_argv_bypass b w) = Transient_get key w.
Proof. reflexivity. Qed.

(** C9. With the bypass flag the cycle runs whatever the scheduler's marker
    is: past the connectivity, sync and masternode checks the first call of
    [main] is the object sync.  The lock check of [entrypoint] does not look
    at the flag: with either value the script leaves through [sys.exit(1)]
    exactly when the lock is held; on a masternode it exits with status 1
    when the lock is held and returns when it is not; and when the lock is
    held the script itself has changed nothing in the world. *)
Theorem bypass_skips_window_not_lock (p : Process) (w : World) :
  (argv_bypass w = true ->
   is_sucrd_port_open (daemon w) = true ->
   is_synced (daemon w) = true ->
   is_masternode (daemon w) = true ->
   exists rest, emitted main w = ESync :: rest)
  /\ (forall b,
        fst (entrypoint (on_world (set_argv_bypass b) p)) = SysExit 1 <->
        is_true (Transient_get mutex_key (world p)) = true)
  /\ (forall b,
        is_masternode (daemon (world p)) = true ->
        fst (entrypoint (on_world (set_argv_bypass b) p)) =
          if is_true (Transient_get mutex_key (world p))
          then SysExit 1 else Returned)
  /\ (forall b,
        is_true (Transient_get mutex_key (world p)) = true ->
        world (snd (entrypoint (on_world (set_argv_bypass b) p))) =
          set_argv_bypass b (world p)).
Proof.
  split; [|split; [|split]].
  - intros Hb Hopen Hsync Hmn.
    assert (Hrun : Scheduler_is_run_time
              (if argv_bypass w then Scheduler_clear_schedule w else w) = true)
      by (rewrite Hb; reflexivity).
    destruct (main_cycle_calls w Hopen Hsync Hmn Hrun) as (rest & Hem & _).
    eexists. exact Hem.
  - intros b.
    destruct (is_true (Transient_get mutex_key (world p))) eqn:Hl.
    + rewrite entrypoint_lock_held; [|exact Hl]. split; reflexivity.
    + rewrite entrypoint_lock_free; [|exact Hl]. cbn [fst].
      split; [|discriminate].
      intros E.
      destruct (main_exit
                  (Transient_set mutex_key
                     (misc_now (world (on_world (set_argv_bypass b) p))) 90
                     (world (on_world (set_argv_bypass b) p))))
        as [E'|E']; rewrite E' in E; discriminate.
  - intros b Hmn.
    destruct (is_true (Transient_get mutex_key (world p))) eqn:Hl.
    + rewrite entrypoint_lock_held; [reflexivity|exact Hl].
    + rewrite entrypoint_lock_free; [|exact Hl]. cbn [fst].
      apply main_masternode_returns. exact Hmn.
  - intros b Hl. rewrite entrypoint_lock_held; [reflexivity|exact Hl].
Qed.

Lemma transients_Transient_delete key w :
  transients (Transient_delete key w) !! key = None.
Proof. unfold Transient_delete. simpl. apply lookup_delete_eq. Qed.

(** The script run while the lock is held, in a process with no other
    atexit callback: status 1, and the callback registered before the check
    has deleted the entry of the instance that holds the lock. *)
Lemma run_script_lock_held (p : Process) :
  atexit_callbacks p = [] ->
  is_true (Transient_get mutex_key (world p)) = true ->
  run_script p = (1, Transient_delete mutex_key (world p)).
Proof.
  intros Hcb Hl. unfold run_script. rewrite (entrypoint_lock_held p Hl).
  unfold interpreter_exit. simpl. rewrite Hcb. reflexivity.
Qed.

(** C8. The handler and the callback an interrupt meets are those
    [entrypoint] has registered (sentinel.py:253-254), which nothing in the
    script changes afterwards.  Whatever the world of the process is when
    the interrupt arrives, the process ends with status 1, not 0, and no
    entry is left under the key of the run lock: the handler deletes the
    key SENTINEL_RUNNING and exits, and the atexit callback then deletes
    the key made from the configuration. *)
Theorem sigint_releases_lock (p0 : Process) (work : World -> World) :
  atexit_callbacks p0 = [] ->
  sigint_handler (snd (entrypoint p0)) = Some signal_handler
  /\ atexit_callbacks (snd (entrypoint p0)) = [cleanup mutex_key]
  /\ fst (deliver_sigint (on_world work (snd (entrypoint p0)))) = 1
  /\ fst (deliver_sigint (on_world work (snd (entrypoint p0)))) <> 0
  /\ transients
       (snd (deliver_sigint (on_world work (snd (entrypoint p0)))))
     !! mutex_key = None.
Proof.
  intros Hcb.
  destruct (entrypoint_registrations p0) as [Hh Ha]. rewrite Hcb in Ha.
  split; [exact Hh|]. split; [exact Ha|].
  unfold deliver_sigint, interpreter_exit.
  change (sigint_handler (on_world work (snd (entrypoint p0))))
    with (sigint_handler (snd (entrypoint p0))).
  rewrite Hh. cbn [signal_handler fst snd exit_status].
  change (atexit_callbacks
            (on_world
               (fun _ =>
                  Transient_delete "SENTINEL_RUNNING"
                    (world (on_world work (snd (entrypoint p0)))))
               (on_world work (snd (entrypoint p0)))))
    with (atexit_callbacks (snd (entrypoint p0))).
  rewrite Ha. cbn [fold_left].
  split; [reflexivity|]. split; [arith|].
  apply transients_Transient_delete.
Qed.

(** ** Further facts on the script *)

Lemma emitted_unchanged (pass : World -> World) (w : World) :
  pass w = w -> emitted pass w = [].
Proof.
  intros H. apply emitted_app. rewrite H, app_nil_r. reflexivity.
Qed.

Lemma emitted_unchanged_exit (pass : World -> Exit * World) (w : World) :
  snd (pass w) = w -> emitted pass w = [].
Proof.
  intros H. apply emitted_app_exit. rewrite H, app_nil_r. reflexivity.
Qed.

Lemma print_colored_return_world text color w :
  snd (print_colored_return text color w) = w.
Proof.
  unfold print_colored_return. destruct (colored text color w); reflexivity.
Qed.

(** A reachable, synced daemon that is not a masternode: the print of
    line 175 decides how [main] ends. *)
Lemma main_not_masternode (w : World) :
  is_sucrd_port_open (daemon w) = true ->
  is_synced (daemon w) = true ->
  is_masternode (daemon w) = false ->
  main w =
    (if ansi_colors_disabled w then Returned else Raised "KeyError", w).
Proof.
  intros Hopen Hsync Hmn. unfold main, print_colored_return, colored.
  rewrite Hopen, Hsync, Hmn. cbn [negb].
  destruct (ansi_colors_disabled w); reflexivity.
Qed.

(** [main] stops before the cycle and leaves the world as it was (no vote,
    submission, ping or sync; store, votes and schedule marker untouched).
    It returns when the daemon cannot be reached or is not synced, and, on
    a masternode without the bypass flag, when it is not run time.  For a
    reachable, synced daemon that is not a masternode, line 175 passes the
    message where [colored] expects the colour: unless ANSI_COLORS_DISABLED
    is set, [main] does not return but raises KeyError. *)
Theorem main_skips_cycle (w : World) :
  (is_sucrd_port_open (daemon w) = false
   \/ is_synced (daemon w) = false
   \/ (is_masternode (daemon w) = true
       /\ argv_bypass w = false /\ Scheduler_is_run_time w = false) ->
   main w = (Returned, w))
  /\ (is_sucrd_port_open (daemon w) = true ->
      is_synced (daemon w) = true ->
      is_masternode (daemon w) = false ->
      main w =
        (if ansi_colors_disabled w then Returned else Raised "KeyError", w)).
Proof.
  split.
  - intros H. unfold main, print_colored_return.
    rewrite colored_red, colored_yellow.
    destruct (is_sucrd_port_open (daemon w)); cbn [negb]; [|reflexivity].
    destruct (is_synced (daemon w)); cbn [negb]; [|reflexivity].
    destruct H as [H|[H|(Hmn & Hb & Hr)]]; try discriminate.
    rewrite Hmn, Hb, Hr. reflexivity.
  - apply main_not_masternode.
Qed.

(** Whatever the state, no vote, submission or ping of [main] precedes the
    object sync: the trace of a run is empty, or begins with the sync. *)
Theorem main_calls_start_with_sync (w : World) :
  emitted main w = [] \/ exists rest, emitted main w = ESync :: rest.
Proof.
  destruct (is_sucrd_port_open (daemon w)) eqn:Hopen;
    [|left; apply emitted_unchanged_exit; unfold main; rewrite Hopen;
      apply print_colored_return_world].
  destruct (is_synced (daemon w)) eqn:Hsync;
    [|left; apply emitted_unchanged_exit; unfold main; rewrite Hopen, Hsync;
      apply print_colored_return_world].
  destruct (is_masternode (daemon w)) eqn:Hmn;
    [|left; apply emitted_unchanged_exit; unfold main;
      rewrite Hopen, Hsync, Hmn; apply print_colored_return_world].
  destruct (Scheduler_is_run_time
              (if argv_bypass w then Scheduler_clear_schedule w else w))
    eqn:Hrun.
  - right.
    destruct (main_cycle_calls w Hopen Hsync Hmn Hrun) as (rest & Hem & _).
    eexists. exact Hem.
  - left. apply emitted_unchanged_exit. unfold main.
    rewrite Hopen, Hsync, Hmn. cbn [negb].
    destruct (argv_bypass w); [discriminate|].
    rewrite Hrun. reflexivity.
Qed.

(** The resolver leaves the world as it was (no vote cast or recorded,
    nothing submitted) when the node is not a masternode; when, no funding
    vote being held for the height, the cycle is not in its maturity phase
    or the builder yields no candidate; and when no stored record matches
    the candidate and this node is not the elected one. *)
Theorem attempt_superblock_creation_does_nothing (sucrd : SucreDaemon)
    (w : World) :
  is_masternode sucrd = false
  \/ (Superblock_is_voted_funding (next_superblock_height sucrd) w = false
      /\ (is_govobj_maturity_phase sucrd = false
          \/ create_superblock
               (approved_and_ranked (proposals w) (governance_quorum sucrd)
                                    (next_superblock_max_budget sucrd))
               (next_superblock_height sucrd)
               (get_superblock_budget_allocation sucrd
                  (next_superblock_height sucrd))
               (block_height_to_epoch sucrd (next_superblock_height sucrd))
             = None))
  \/ (exists cand,
        reaches_match sucrd w cand
        /\ (forall sb, In sb (superblocks w) -> sb_sb_hash sb <> hex_hash cand)
        /\ we_are_the_winner sucrd = false) ->
  attempt_superblock_creation sucrd w = w.
Proof.
  intros [H|[[Hnv [H|H]]|(cand & Hreach & Hno & Hwin)]].
  - unfold attempt_superblock_creation. rewrite H. reflexivity.
  - unfold attempt_superblock_creation.
    destruct (is_masternode sucrd); [|reflexivity].
    cbn [negb]. rewrite Hnv, H. reflexivity.
  - unfold attempt_superblock_creation.
    destruct (is_masternode sucrd); [|reflexivity].
    cbn [negb]. rewrite Hnv.
    destruct (is_govobj_maturity_phase sucrd); [|reflexivity].
    cbn [negb]. rewrite H. reflexivity.
  - rewrite (attempt_superblock_creation_at_match _ _ _ Hreach).
    rewrite (find_highest_deterministic_None _ _ Hno), Hwin. reflexivity.
Qed.

(** The votes and submissions of a run of the resolver have one of three
    shapes. *)
Lemma attempt_superblock_creation_shape (sucrd : SucreDaemon) (w : World) :
  (exists chosen,
     emitted (attempt_superblock_creation sucrd) w =
       map (fun sb => EVote (GSuperblock sb) VoteSignals.funding
                        VoteOutcomes.no) chosen)
  \/ (exists dbrec chosen,
        emitted (attempt_superblock_creation sucrd) w =
          EVote (GSuperblock dbrec) VoteSignals.funding VoteOutcomes.yes
          :: map (fun sb => EVote (GSuperblock sb) VoteSignals.delete
                              VoteOutcomes.yes) chosen)
  \/ (exists cand,
        emitted (attempt_superblock_creation sucrd) w =
          [ESubmit (GSuperblock cand)]).
Proof.
  assert (Hnil : forall w' : World, w' = w ->
            exists chosen, emitted (fun _ => w') w =
              map (fun sb => EVote (GSuperblock sb) VoteSignals.funding
                               VoteOutcomes.no) chosen).
  { intros w' ->. exists []. apply emitted_app. rewrite app_nil_r.
    reflexivity. }
  unfold emitted, final_world, Outcome_World in *.
  unfold attempt_superblock_creation.
  destruct (is_masternode sucrd); cbn [negb]; [|left; apply Hnil; reflexivity].
  destruct (Superblock_is_voted_funding _ w).
  { destruct (cond_vote_loop VoteSignals.funding VoteSignals.funding
                VoteOutcomes.no
                (Superblock_at_height (next_superblock_height sucrd) w) w)
      as (chosen & Ht & _).
    left. exists chosen. cbv zeta in Ht. rewrite Ht.
    apply skipn_length_app. }
  destruct (is_govobj_maturity_phase sucrd); cbn [negb];
    [|left; apply Hnil; reflexivity].
  destruct (create_superblock _ _ _ _) as [cand|];
    [|left; apply Hnil; reflexivity].
  destruct (Superblock_find_highest_deterministic _ w) as [dbrec|].
  - right. left.
    set (w1 := vote (GSuperblock dbrec) VoteSignals.funding
                    VoteOutcomes.yes w).
    destruct (cond_vote_loop VoteSignals.funding VoteSignals.delete
                VoteOutcomes.yes
                (Superblock_where_sb_hash (hex_hash cand) w1) w1)
      as (chosen & Ht & _).
    exists dbrec, chosen. cbv zeta in Ht. rewrite Ht.
    unfold w1. rewrite trace_vote, <- app_assoc.
    apply skipn_length_app.
  - destruct (we_are_the_winner sucrd); [|left; apply Hnil; reflexivity].
    right. right. exists cand.
    change (trace (submit (GSuperblock cand) w))
      with (trace w ++ [ESubmit (GSuperblock cand)]).
    apply skipn_length_app.
Qed.

(** Whatever the state, a run of the resolver casts at most one
    (Funding, Yes) vote, and a run that submits a superblock casts no vote
    and submits nothing else: its trace is that one submission. *)
Theorem attempt_superblock_creation_one_decision (sucrd : SucreDaemon)
    (w : World) :
  (length (List.filter (is_decision VoteSignals.funding VoteOutcomes.yes)
             (emitted (attempt_superblock_creation sucrd) w)) <= 1)%nat
  /\ (forall o,
        In (ESubmit o) (emitted (attempt_superblock_creation sucrd) w) ->
        emitted (attempt_superblock_creation sucrd) w = [ESubmit o]).
Proof.
  destruct (attempt_superblock_creation_shape sucrd w)
    as [(chosen & ->)|[(dbrec & chosen & ->)|(cand & ->)]].
  - split.
    + rewrite (filter_decision_votes GSuperblock) by reflexivity.
      simpl. arith.
    + intros o H. apply in_map_iff in H. destruct H as (? & E & _).
      discriminate.
  - split.
    + cbn [List.filter is_decision VoteSignals.eqb VoteOutcomes.eqb andb].
      rewrite (filter_decision_votes GSuperblock) by reflexivity.
      simpl. arith.
    + intros o [E|H]; [discriminate|].
      apply in_map_iff in H. destruct H as (? & E & _). discriminate.
  - split; [simpl; arith|].
    intros o [E|[]]. rewrite E. reflexivity.
Qed.

Lemma filter_split_perm {A : Type} (f : A -> bool) (l : list A) :
  Permutation (List.filter f l ++ List.filter (fun x => negb (f x)) l) l.
Proof.
  induction l as [|x l IH]; simpl; [constructor|].
  destruct (f x); simpl.
  - constructor. exact IH.
  - apply Permutation_sym, Permutation_cons_app, Permutation_sym. exact IH.
Qed.

Lemma voted_objects_app evs1 evs2 :
  voted_objects (evs1 ++ evs2) = voted_objects evs1 ++ voted_objects evs2.
Proof. unfold voted_objects. apply flat_map_app. Qed.

Lemma voted_objects_votes {A : Type} (inj : A -> GovObj) s out (l : list A) :
  voted_objects (map (fun x => EVote (inj x) s out) l) = map inj l.
Proof.
  induction l as [|x l IH]; simpl; [reflexivity|]. f_equal. exact IH.
Qed.

Lemma filter_not_vote_votes {A : Type} (inj : A -> GovObj) s out
    (l : list A) :
  List.filter (fun e => negb (is_vote e))
    (map (fun x => EVote (inj x) s out) l) = [].
Proof. induction l as [|x l IH]; simpl; [reflexivity|exact IH]. Qed.

(** One pass of [watchdog_check] votes once on each watchdog of the store:
    the objects of its votes are the rows of the watchdog table, each as
    often as it is in the table.  What is not a vote in its trace is the
    submission of the new watchdog, there exactly when no watchdog is
    active.  So the pass makes as many votes and submissions as there are
    watchdogs, and one more when none is active. *)
Theorem watchdog_check_votes_each_once (sucrd : SucreDaemon) (w : World) :
  Permutation (voted_objects (emitted (watchdog_check sucrd) w))
              (map GWatchdog (watchdogs w))
  /\ List.filter (fun e => negb (is_vote e))
       (emitted (watchdog_check sucrd) w) =
     (if Nat.eqb (length (Watchdog_active sucrd w)) 0
      then [ESubmit (GWatchdog (Watchdog_new (clock w)))] else [])
  /\ length (emitted (watchdog_check sucrd) w) =
     (length (watchdogs w)
      + (if Nat.eqb (length (Watchdog_active sucrd w)) 0 then 1 else 0))%nat.
Proof.
  rewrite watchdog_check_trace. cbv zeta.
  pose proof (filter_split_perm (Watchdog_is_expired sucrd (clock w))
                (watchdogs w)) as Hsplit.
  fold (Watchdog_expired sucrd w) in Hsplit.
  fold (Watchdog_active sucrd w) in Hsplit.
  assert (Hlen : (length (Watchdog_expired sucrd w)
                  + length (Watchdog_active sucrd w)
                  = length (watchdogs w))%nat).
  { rewrite <- length_app. apply Permutation_length. exact Hsplit. }
  rewrite voted_objects_app, List.filter_app, length_app, length_map.
  rewrite (voted_objects_votes GWatchdog), (filter_not_vote_votes GWatchdog).
  destruct (Watchdog_active sucrd w) as [|a l] eqn:Hact.
  - cbn [sorted fold_right pop rev length Nat.eqb].
    rewrite app_nil_r in Hsplit. cbn [voted_objects flat_map].
    rewrite app_nil_r. split; [|split].
    + apply Permutation_map. exact Hsplit.
    + reflexivity.
    + simpl in *. arith.
  - destruct (pop_sorted wd_object_hash (a :: l))
      as (winner & rest & Hpop & Hperm & _); [discriminate|].
    rewrite Hpop. cbn [length Nat.eqb].
    change (voted_objects
              (EVote (GWatchdog winner) VoteSignals.valid VoteOutcomes.yes
               :: map (fun wd => EVote (GWatchdog wd) VoteSignals.delete
                                   VoteOutcomes.yes) rest))
      with (GWatchdog winner
            :: voted_objects
                 (map (fun wd => EVote (GWatchdog wd) VoteSignals.delete
                                   VoteOutcomes.yes) rest)).
    rewrite (voted_objects_votes GWatchdog).
    cbn [List.filter is_vote negb].
    rewrite (filter_not_vote_votes GWatchdog).
    split; [|split].
    + rewrite <- map_cons, <- map_app. apply Permutation_map.
      rewrite <- Hsplit. apply Permutation_app_head.
      apply Permutation_sym. exact Hperm.
    + reflexivity.
    + apply Permutation_length in Hperm. simpl in *.
      rewrite length_map. arith.
Qed.

(** When the rows of the watchdog table are distinct, the winner of a pass
    is not voted for deletion in that pass. *)
Theorem watchdog_check_winner_is_kept (sucrd : SucreDaemon) (w : World)
    (winner : Watchdog) :
  List.NoDup (watchdogs w) ->
  In (EVote (GWatchdog winner) VoteSignals.valid VoteOutcomes.yes)
     (emitted (watchdog_check sucrd) w) ->
  ~ In (EVote (GWatchdog winner) VoteSignals.delete VoteOutcomes.yes)
       (emitted (watchdog_check sucrd) w).
Proof.
  intros Hnd. rewrite watchdog_check_trace. cbv zeta.
  intros Hvalid Hdel.
  apply in_app_or in Hvalid. destruct Hvalid as [Hvalid|Hvalid].
  { apply in_map_iff in Hvalid. destruct Hvalid as (? & E & _).
    discriminate. }
  destruct (pop (sorted wd_object_hash (Watchdog_active sucrd w)))
    as [[wn rest]|] eqn:Hpop; [|destruct Hvalid as [E|[]]; discriminate].
  destruct Hvalid as [E|Hvalid];
    [|apply in_map_iff in Hvalid; destruct Hvalid as (? & E & _);
      discriminate].
  injection E as ->.
  assert (Hperm : Permutation (Watchdog_active sucrd w) (winner :: rest)).
  { apply pop_snoc in Hpop.
    rewrite <- (sorted_perm wd_object_hash (Watchdog_active sucrd w)), Hpop.
    symmetry. apply Permutation_cons_append. }
  assert (Hndact : List.NoDup (winner :: rest)).
  { apply (Permutation.Permutation_NoDup Hperm).
    unfold Watchdog_active. apply List.NoDup_filter. exact Hnd. }
  assert (Hactive : In winner (Watchdog_active sucrd w)).
  { apply (Permutation_in _ (Permutation_sym Hperm)). left. reflexivity. }
  apply in_app_or in Hdel. destruct Hdel as [Hdel|[E|Hdel]].
  - apply in_map_iff in Hdel. destruct Hdel as (x & E & Hx).
    injection E as ->.
    apply Watchdog_expired_In in Hx. apply Watchdog_active_In in Hactive.
    destruct Hx as [_ Hx]. destruct Hactive as [_ Ha]. arith.
  - discriminate.
  - apply in_map_iff in Hdel. destruct Hdel as (x & E & Hx).
    injection E as ->. inversion Hndact. contradiction.
Qed.

(** ** Further facts on the run lock *)

Lemma mutex_key_is_not_literal : mutex_key <> "SENTINEL_RUNNING".
Proof. unfold mutex_key. simpl. discriminate. Qed.

(** The handler of SIGINT exits with status 1 and deletes the entry under
    the literal key SENTINEL_RUNNING; the entry under the key of the run
    lock, which carries the configuration, is left as it was by the handler
    itself. *)
Theorem signal_handler_leaves_config_lock (signum : Z) (w : World) :
  fst (signal_handler signum w) = SysExit 1
  /\ transients (snd (signal_handler signum w)) !! mutex_key
     = transients w !! mutex_key
  /\ transients (snd (signal_handler signum w)) !! "SENTINEL_RUNNING" = None.
Proof.
  split; [reflexivity|]. unfold signal_handler, Transient_delete. simpl.
  split.
  - apply lookup_delete_ne. intros E. apply mutex_key_is_not_literal.
    symmetry. exact E.
  - apply lookup_delete_eq.
Qed.


End Sentinel.

(** ** The statements on sample data *)

Lemma watchdog_check_elects_highest_hash_witness :
  In (EVote (GWatchdog wd_old) VoteSignals.delete VoteOutcomes.yes)
     (emitted (watchdog_check (ex_daemon false)) ex_watch)
  /\ exists winner losers,
       Permutation (Watchdog_active (ex_daemon false) ex_watch)
                   (winner :: losers)
       /\ (forall wd, In wd (Watchdog_active (ex_daemon false) ex_watch) ->
             hash_leb (wd_object_hash wd) (wd_object_hash winner) = true)
       /\ List.filter (is_decision VoteSignals.valid VoteOutcomes.yes)
                      (emitted (watchdog_check (ex_daemon false)) ex_watch)
          = [EVote (GWatchdog winner) VoteSignals.valid VoteOutcomes.yes]
       /\ (forall wd, In wd losers ->
             In (EVote (GWatchdog wd) VoteSignals.delete VoteOutcomes.yes)
                (emitted (watchdog_check (ex_daemon false)) ex_watch)).
Proof.
  destruct (watchdog_check_elects_highest_hash (ex_daemon false) ex_watch)
    as [Hexp Hact].
  split.
  - apply Hexp; [vm_compute; tauto|vm_compute; reflexivity].
  - apply Hact. vm_compute. discriminate.
Defined.

(** The scenario with the watchdogs aa, bb and 11 active: bb is voted valid,
    11 and aa are voted for deletion, after the expired one. *)
Example watchdog_check_scenario :
  emitted (watchdog_check (ex_daemon false)) ex_watch =
    [EVote (GWatchdog wd_old) VoteSignals.delete VoteOutcomes.yes;
     EVote (GWatchdog wd_B) VoteSignals.valid VoteOutcomes.yes;
     EVote (GWatchdog wd_C) VoteSignals.delete VoteOutcomes.yes;
     EVote (GWatchdog wd_A) VoteSignals.delete VoteOutcomes.yes].
Proof. vm_compute. reflexivity. Qed.

Lemma watchdog_check_seeds_when_none_active_witness :
  emitted (watchdog_check (ex_daemon false)) (ex_world [wd_old] [] [] [] false)
  = [EVote (GWatchdog wd_old) VoteSignals.delete VoteOutcomes.yes;
     ESubmit (GWatchdog (Watchdog_new 10000))].
Proof.
  apply (watchdog_check_seeds_when_none_active (ex_daemon false)
           (ex_world [wd_old] [] [] [] false)).
  vm_compute. reflexivity.
Defined.

Lemma prune_expired_proposals_decisions_witness :
  In (EVote (GProposal p_old) VoteSignals.delete VoteOutcomes.yes)
     (emitted (prune_expired_proposals ex_cycle_length (ex_daemon false))
              (ex_world [] [p_old; p_live] [] [] false))
  /\ ~ In (EVote (GProposal p_live) VoteSignals.delete VoteOutcomes.yes)
          (emitted (prune_expired_proposals ex_cycle_length (ex_daemon false))
                   (ex_world [] [p_old; p_live] [] [] false)).
Proof.
  destruct (prune_expired_proposals_decisions ex_cycle_length
              (ex_daemon false) (ex_world [] [p_old; p_live] [] [] false))
    as [Hold Hlive].
  split.
  - apply Hold; [vm_compute; tauto|vm_compute; reflexivity].
  - apply Hlive. vm_compute. discriminate.
Defined.

(** Two superblocks at height 100 with the hash of the candidate, neither
    voted: the one with the highest object hash is funded, the other is
    voted for deletion; the superblock with another hash is left alone. *)
Lemma attempt_superblock_creation_deterministic_match_witness :
  exists dbrec,
    emitted (attempt_superblock_creation ex_ranked ex_builder sb_sb_hash
               (ex_daemon false))
            (ex_world [] [] [sb_1; sb_2; sb_other] [] false)
    = EVote (GSuperblock dbrec) VoteSignals.funding VoteOutcomes.yes
      :: map (fun sb => EVote (GSuperblock sb) VoteSignals.delete
                          VoteOutcomes.yes)
             (List.filter
                (fun sb =>
                   negb (String.eqb (sb_object_hash dbrec) (sb_object_hash sb))
                   && negb (voted_on (GSuperblock sb) VoteSignals.funding
                              (ex_world [] [] [sb_1; sb_2; sb_other] []
                                        false)))
                (Superblock_where_sb_hash (sb_sb_hash sb_cand)
                   (ex_world [] [] [sb_1; sb_2; sb_other] [] false))).
Proof.
  destruct (attempt_superblock_creation_deterministic_match
              ex_ranked ex_builder sb_sb_hash (ex_daemon false)
              (ex_world [] [] [sb_1; sb_2; sb_other] [] false) sb_cand sb_2)
    as (dbrec & _ & _ & Hem & _).
  - repeat split.
  - vm_compute. tauto.
  - reflexivity.
  - exists dbrec. exact Hem.
Defined.

Example attempt_superblock_creation_scenario :
  emitted (attempt_superblock_creation ex_ranked ex_builder sb_sb_hash
             (ex_daemon false))
          (ex_world [] [] [sb_1; sb_2; sb_other] [] false)
  = [EVote (GSuperblock sb_1) VoteSignals.funding VoteOutcomes.yes;
     EVote (GSuperblock sb_2) VoteSignals.delete VoteOutcomes.yes].
Proof. vm_compute. reflexivity. Qed.

Lemma attempt_superblock_creation_already_voted_witness :
  List.filter is_submit
    (emitted (attempt_superblock_creation ex_ranked ex_builder sb_sb_hash
                (ex_daemon false))
             (ex_world [] [] [sb_1; sb_2; sb_other]
                       [mkVote "ff01" VoteSignals.funding VoteOutcomes.yes]
                       false)) = []
  /\ emitted (attempt_superblock_creation ex_ranked ex_builder sb_sb_hash
                (ex_daemon false))
             (ex_world [] [] [sb_1; sb_2; sb_other]
                       [mkVote "ff01" VoteSignals.funding VoteOutcomes.yes]
                       false)
     = [EVote (GSuperblock sb_2) VoteSignals.funding VoteOutcomes.no;
        EVote (GSuperblock sb_other) VoteSignals.funding VoteOutcomes.no].
Proof.
  split.
  - apply (attempt_superblock_creation_already_voted ex_ranked ex_builder
             sb_sb_hash (ex_daemon false)).
    vm_compute. reflexivity.
  - vm_compute. reflexivity.
Defined.

Lemma attempt_superblock_creation_submits_candidate_witness :
  emitted (attempt_superblock_creation ex_ranked ex_builder sb_sb_hash
             (ex_daemon false))
          (ex_world [] [] [sb_other] [] false)
  = [ESubmit (GSuperblock sb_cand)].
Proof.
  apply (attempt_superblock_creation_submits_candidate ex_ranked ex_builder
           sb_sb_hash (ex_daemon false) (ex_world [] [] [sb_other] [] false)
           sb_cand).
  - repeat split.
  - intros sb [<-|[]]. vm_compute. discriminate.
  - reflexivity.
Defined.

Lemma main_pings_or_checks_watchdogs_witness :
  In EPing
     (emitted (main ex_ranked ex_builder sb_sb_hash ex_cycle_length ex_jitter
                    ex_interval)
              (ex_world [wd_A; wd_B; wd_old] [p_old] [sb_other] [] true))
  /\ List.filter concerns_watchdog
       (emitted (main ex_ranked ex_builder sb_sb_hash ex_cycle_length
                      ex_jitter ex_interval)
                (ex_world [wd_A; wd_B; wd_old] [p_old] [sb_other] [] true))
     = [].
Proof.
  apply (main_pings_or_checks_watchdogs ex_ranked ex_builder sb_sb_hash
           ex_cycle_length ex_jitter ex_interval
           (ex_world [wd_A; wd_B; wd_old] [p_old] [sb_other] [] true));
    reflexivity.
Defined.

(** The marker is set for a later time and the flag is given: the cycle
    runs.  With the flag and the lock free, the script returns. *)
Lemma bypass_skips_window_not_lock_witness :
  (exists rest,
     emitted (main ex_ranked ex_builder sb_sb_hash ex_cycle_length ex_jitter
                   ex_interval)
             (set_next_run (Some 99999)
                (set_argv_bypass true (ex_world [wd_A] [] [] [] false)))
     = ESync :: rest)
  /\ fst (entrypoint ex_conf ex_ranked ex_builder sb_sb_hash ex_cycle_length
            ex_jitter ex_interval
            (on_world (set_argv_bypass true)
               (ex_process (ex_world [wd_A] [] [] [] false))))
     = Returned.
Proof.
  destruct (bypass_skips_window_not_lock ex_conf ex_ranked ex_builder
              sb_sb_hash ex_cycle_length ex_jitter ex_interval
              (ex_process (ex_world [wd_A] [] [] [] false))
              (set_next_run (Some 99999)
                 (set_argv_bypass true (ex_world [wd_A] [] [] [] false))))
    as (Hcycle & _ & Hlock & _).
  split.
  - apply Hcycle; reflexivity.
  - exact (Hlock true eq_refl).
Defined.

(** The interrupt arrives while the cycle runs under the lock set at
    10000. *)
Lemma sigint_releases_lock_witness :
  fst (deliver_sigint
         (on_world (Transient_set (mutex_key ex_conf) 10000 90)
            (snd (entrypoint ex_conf ex_ranked ex_builder sb_sb_hash
                    ex_cycle_length ex_jitter ex_interval
                    (ex_process (ex_world [] [] [] [] false)))))) <> 0
  /\ transients
       (snd (deliver_sigint
               (on_world (Transient_set (mutex_key ex_conf) 10000 90)
                  (snd (entrypoint ex_conf ex_ranked ex_builder sb_sb_hash
                          ex_cycle_length ex_jitter ex_interval
                          (ex_process (ex_world [] [] [] [] false)))))))
     !! mutex_key ex_conf = None.
Proof.
  apply (sigint_releases_lock ex_conf ex_ranked ex_builder sb_sb_hash
           ex_cycle_length ex_jitter ex_interval
           (ex_process (ex_world [] [] [] [] false))
           (Transient_set (mutex_key ex_conf) 10000 90)).
  reflexivity.
Defined.

(** C7, on the code. An instance holds the lock (set at 9990 for 90 seconds,
    the time is 10000) when the script is started a second time: the second
    process exits with status 1, as claimed, but the lock entry of the
    first is gone when it has exited; the claim has it left unchanged. *)
Theorem run_script_abort_deletes_held_lock :
  Transient_get (mutex_key ex_conf)
    (set_clock 10000
       (Transient_set (mutex_key ex_conf) 9990 90
          (set_clock 9990 (ex_world [] [] [] [] false)))) = Some 9990
  /\ fst (run_script ex_conf ex_ranked ex_builder sb_sb_hash ex_cycle_length
            ex_jitter ex_interval
            (ex_process
               (set_clock 10000
                  (Transient_set (mutex_key ex_conf) 9990 90
                     (set_clock 9990 (ex_world [] [] [] [] false)))))) = 1
  /\ transients
       (snd (run_script ex_conf ex_ranked ex_builder sb_sb_hash
               ex_cycle_length ex_jitter ex_interval
               (ex_process
                  (set_clock 10000
                     (Transient_set (mutex_key ex_conf) 9990 90
                        (set_clock 9990 (ex_world [] [] [] [] false)))))))
     !! mutex_key ex_conf = None.
Proof.
  assert (Hget : Transient_get (mutex_key ex_conf)
            (set_clock 10000
               (Transient_set (mutex_key ex_conf) 9990 90
                  (set_clock 9990 (ex_world [] [] [] [] false))))
          = Some 9990).
  { unfold Transient_get, Transient_set. simpl transients.
    rewrite lookup_insert_eq. reflexivity. }
  split; [exact Hget|].
  rewrite run_script_lock_held; [|reflexivity|].
  - split; [reflexivity|]. apply transients_Transient_delete.
  - cbn [world ex_process]. rewrite Hget. reflexivity.
Qed.

(** ** Facts on lib/sucr_config.py *)

Lemma join_lines_of (s : string) : join (lines_of s) = s.
Proof.
  induction s as [|c r IH]; [reflexivity|].
  simpl. destruct (Ascii.eqb c newline).
  - simpl. rewrite IH. reflexivity.
  - destruct (lines_of r) as [|l ls]; simpl in *.
    + rewrite <- IH. reflexivity.
    + rewrite <- IH. reflexivity.
Qed.

Lemma filter_all {A : Type} (f : A -> bool) (l : list A) :
  (forall x, In x l -> f x = true) -> List.filter f l = l.
Proof.
  induction l as [|x l IH]; intros H; simpl; [reflexivity|].
  rewrite (H x (or_introl eq_refl)), IH; [reflexivity|].
  intros y Hy. apply H. right. exact Hy.
Qed.

Lemma dict_of_fold {V : Type} (pairs : list (string * V))
    (m : gmap string V) (k : string) (v : V) :
  fold_left (fun m kv => <[fst kv := snd kv]> m) pairs m !! k = Some v ->
  In (k, v) pairs \/ m !! k = Some v.
Proof.
  revert m. induction pairs as [|[k' v'] l IH]; intros m H; simpl in *.
  - right. exact H.
  - destruct (IH _ H) as [Hin|Hm]; [left; right; exact Hin|].
    destruct (decide (k' = k)) as [->|Hne].
    + rewrite lookup_insert_eq in Hm. injection Hm as ->. left. left.
      reflexivity.
    + rewrite lookup_insert_ne in Hm by exact Hne. right. exact Hm.
Qed.

Lemma dict_of_lookup_In {V : Type} (pairs : list (string * V)) k v :
  dict_of pairs !! k = Some v -> In (k, v) pairs.
Proof.
  intros H. destruct (dict_of_fold pairs ∅ k v H) as [Hin|He]; [exact Hin|].
  rewrite lookup_empty in He. discriminate.
Qed.

Lemma dict_of_fold_is_Some {V : Type} (pairs : list (string * V))
    (m : gmap string V) (k : string) :
  (exists v, In (k, v) pairs) \/ is_Some (m !! k) ->
  is_Some (fold_left (fun m kv => <[fst kv := snd kv]> m) pairs m !! k).
Proof.
  revert m. induction pairs as [|[k' v'] l IH]; intros m H; simpl in *.
  - destruct H as [(v & [])|H]. exact H.
  - apply IH. destruct H as [(v & [E|Hin])|H].
    + injection E as -> ->. right. rewrite lookup_insert_eq. eauto.
    + left. eauto.
    + right. destruct (decide (k' = k)) as [->|Hne].
      * rewrite lookup_insert_eq. eauto.
      * rewrite lookup_insert_ne by exact Hne. exact H.
Qed.

(** The matches [findall] returns are matches of the pattern at some place
    of the text. *)
Lemma findall_In {A : Type} (match_at : string -> option (A * nat))
    (skip : nat) (s : string) (x : A) :
  In x (findall match_at skip s) ->
  exists s' len, match_at s' = Some (x, len).
Proof.
  revert skip. induction s as [|c r IH]; intros skip H; simpl in H.
  - destruct skip; [|destruct H].
    destruct (match_at EmptyString) as [[y len]|] eqn:E; [|destruct H].
    destruct H as [<-|[]]. eauto.
  - destruct skip as [|k]; [|exact (IH _ H)].
    destruct (match_at (String c r)) as [[y len]|] eqn:E.
    + destruct H as [<-|H]; [eauto|exact (IH _ H)].
    + exact (IH _ H).
Qed.

Lemma append_empty (s : string) : String.append s EmptyString = s.
Proof.
  induction s as [|c r IH]; [reflexivity|].
  change (String c (String.append r EmptyString) = String c r).
  f_equal. exact IH.
Qed.

Lemma well_split_cons (l : string) (ls : list string) :
  complete_line l = true -> well_split ls -> well_split (l :: ls).
Proof. intros Hl Hls. destruct ls; simpl; auto. Qed.

Lemma well_split_inv (l : string) (ls : list string) :
  well_split (l :: ls) ->
  (complete_line l = true \/ (open_line l = true /\ ls = []))
  /\ well_split ls.
Proof.
  destruct ls as [|l' ls]; simpl.
  - intros [H|H]; auto.
  - intros [H1 H2]. auto.
Qed.

Lemma lines_of_well_split (s : string) : well_split (lines_of s).
Proof.
  induction s as [|c r IH]; [exact I|].
  cbn [lines_of]. destruct (Ascii.eqb c newline) eqn:Hc.
  - apply well_split_cons; [|exact IH]. simpl. rewrite Hc. reflexivity.
  - destruct (lines_of r) as [|l ls].
    + simpl. right. unfold open_line. simpl. rewrite Hc. reflexivity.
    + apply well_split_inv in IH. destruct IH as [[Hl|[Hl ->]] Hls].
      * apply well_split_cons; [|exact Hls]. simpl. rewrite Hc. exact Hl.
      * simpl. right. unfold open_line in *. simpl. rewrite Hc. simpl.
        apply andb_true_iff in Hl. destruct Hl as [_ Hl]. exact Hl.
Qed.

Lemma well_split_filter (f : string -> bool) (ls : list string) :
  well_split ls -> well_split (List.filter f ls).
Proof.
  induction ls as [|l ls IH]; intros H; [exact I|].
  apply well_split_inv in H. destruct H as [Hl Hls].
  cbn [List.filter]. destruct (f l); [|exact (IH Hls)].
  destruct Hl as [Hl|[Hl ->]].
  - apply well_split_cons; [exact Hl|exact (IH Hls)].
  - simpl. right. exact Hl.
Qed.

Lemma lines_of_complete_app (l t : string) :
  complete_line l = true ->
  lines_of (String.append l t) = l :: lines_of t.
Proof.
  induction l as [|c r IH]; simpl; [discriminate|].
  destruct (Ascii.eqb c newline) eqn:Hc.
  - intros Hr. apply String.eqb_eq in Hr. subst r. reflexivity.
  - intros Hr. rewrite (IH Hr). reflexivity.
Qed.

Lemma lines_of_open (l : string) : open_line l = true -> lines_of l = [l].
Proof.
  unfold open_line. induction l as [|c r IH]; simpl; [discriminate|].
  destruct (Ascii.eqb c newline) eqn:Hc; simpl; [discriminate|].
  intros Hr. destruct r as [|d r'].
  - reflexivity.
  - rewrite IH; [reflexivity|]. exact Hr.
Qed.

Lemma lines_of_join (ls : list string) :
  well_split ls -> lines_of (join ls) = ls.
Proof.
  induction ls as [|l ls IH]; intros H; [reflexivity|].
  apply well_split_inv in H. destruct H as [[Hl|[Hl ->]] Hls].
  - simpl. rewrite (lines_of_complete_app _ _ Hl), (IH Hls). reflexivity.
  - simpl. rewrite append_empty. apply lines_of_open, Hl.
Qed.

(** The text [slurp_config_file] returns has no commented line, and a file
    without commented lines is returned as it is. *)
Theorem slurp_config_file_drops_comments (is_space : ascii -> bool)
    (fs : string -> option string) (filename text : string) :
  fs filename = Some text ->
  exists data,
    SucreConfig.slurp_config_file is_space fs filename = Some data
    /\ (forall line, In line (lines_of data) ->
          SucreConfig.is_comment is_space line = false
          /\ In line (lines_of text))
    /\ ((forall line, In line (lines_of text) ->
           SucreConfig.is_comment is_space line = false) ->
        data = text).
Proof.
  intros Hfs. unfold SucreConfig.slurp_config_file. rewrite Hfs.
  eexists. split; [reflexivity|]. split.
  - intros line Hin.
    rewrite lines_of_join in Hin
      by (apply well_split_filter, lines_of_well_split).
    apply filter_In in Hin. destruct Hin as [Hin Hc].
    apply negb_true_iff in Hc. auto.
  - intros Hnone. rewrite filter_all; [apply join_lines_of|].
    intros line Hin. rewrite (Hnone line Hin). reflexivity.
Qed.

(** A file that cannot be opened: [slurp_config_file] fails (the IOError
    is not caught there), [tokenize] catches it and returns no token. *)
Theorem tokenize_missing_file (is_space : ascii -> bool)
    (fs : string -> option string) (filename : string) :
  fs filename = None ->
  SucreConfig.slurp_config_file is_space fs filename = None
  /\ SucreConfig.tokenize is_space fs filename = ∅.
Proof.
  intros Hfs. unfold SucreConfig.tokenize, SucreConfig.slurp_config_file.
  rewrite Hfs. split; reflexivity.
Qed.

Lemma until_eol_no_newline (s : string) :
  has_char newline (until_eol s) = false.
Proof.
  induction s as [|c r IH]; [reflexivity|].
  simpl. destruct (Ascii.eqb c newline) eqn:Hc; [reflexivity|].
  simpl. rewrite Hc. exact IH.
Qed.

Lemma until_equals_key (s k rest : string) :
  until_equals s = Some (k, rest) ->
  has_char "="%char k = false /\ has_char newline k = false.
Proof.
  revert k rest. induction s as [|c r IH]; intros k rest H; simpl in H;
    [discriminate|].
  destruct (Ascii.eqb c "="%char) eqn:He.
  - injection H as <- _. split; reflexivity.
  - destruct (Ascii.eqb c newline) eqn:Hn; [discriminate|].
    destruct (until_equals r) as [[k' rest']|]; [|discriminate].
    injection H as <- _. destruct (IH _ _ eq_refl) as [H1 H2].
    simpl. rewrite He, Hn. auto.
Qed.

Lemma rpc_match_key (s k v : string) (len : nat) :
  SucreConfig.rpc_match s = Some ((k, v), len) ->
  k = "user" \/ k = "password" \/ k = "port".
Proof.
  unfold SucreConfig.rpc_match.
  destruct (strip_prefix "rpc" s) as [r|]; [|discriminate].
  destruct (strip_prefix "user" r) as [r1|].
  - destruct (strip_prefix "=" r1) as [r2|].
    + intros H. injection H as <- _ _. auto.
    + destruct (strip_prefix "password" r) as [r3|].
      * destruct (strip_prefix "=" r3) as [r4|].
        -- intros H. injection H as <- _ _. auto.
        -- destruct (strip_prefix "port" r) as [r5|]; [|discriminate].
           destruct (strip_prefix "=" r5); [|discriminate].
           intros H. injection H as <- _ _. auto.
      * destruct (strip_prefix "port" r) as [r5|]; [|discriminate].
        destruct (strip_prefix "=" r5); [|discriminate].
        intros H. injection H as <- _ _. auto.
  - destruct (strip_prefix "password" r) as [r3|].
    + destruct (strip_prefix "=" r3) as [r4|].
      * intros H. injection H as <- _ _. auto.
      * destruct (strip_prefix "port" r) as [r5|]; [|discriminate].
        destruct (strip_prefix "=" r5); [|discriminate].
        intros H. injection H as <- _ _. auto.
    + destruct (strip_prefix "port" r) as [r5|]; [|discriminate].
      destruct (strip_prefix "=" r5); [|discriminate].
      intros H. injection H as <- _ _. auto.
Qed.

(** With no port given on the command line and no rpcport line in the
    text, [get_rpc_creds] succeeds and the port is the default of the
    network: 9335 on mainnet, 19335 on any other. *)
Theorem get_rpc_creds_default_port (py_int : string -> option Z)
    (args_rpc_port : option PyVal) (data network : string) :
  py_truthy args_rpc_port = false ->
  (forall v, ~ In ("port", v) (findall SucreConfig.rpc_match 0 data)) ->
  exists creds,
    SucreConfig.get_rpc_creds py_int args_rpc_port data network = Some creds
    /\ creds !! "port"
       = Some (PInt (if String.eqb network "mainnet" then 9335 else 19335)).
Proof.
  intros Harg Hno. unfold SucreConfig.get_rpc_creds. rewrite Harg.
  set (creds0 := dict_of _).
  assert (H0 : creds0 !! "port" = None).
  { destruct (creds0 !! "port") as [x|] eqn:E; [|reflexivity].
    apply dict_of_lookup_In in E. apply in_map_iff in E.
    destruct E as ([k v] & E & Hin). simpl in E. injection E as -> _.
    exfalso. exact (Hno _ Hin). }
  rewrite H0. rewrite lookup_insert_eq.
  eexists. split; [reflexivity|]. apply lookup_insert_eq.
Qed.

(** A port given on the command line is the port returned, as it is given:
    the text is not consulted for it and nothing is converted, so the call
    cannot fail on a malformed rpcport line. *)
Theorem get_rpc_creds_port_argument (py_int : string -> option Z)
    (port : PyVal) (data network : string) :
  py_truthy (Some port) = true ->
  exists creds,
    SucreConfig.get_rpc_creds py_int (Some port) data network = Some creds
    /\ creds !! "port" = Some port.
Proof.
  intros Harg. unfold SucreConfig.get_rpc_creds. rewrite Harg.
  eexists. split; [reflexivity|]. apply lookup_insert_eq.
Qed.

(** With no port on the command line, when the text has rpcport lines and
    none of their values converts to an integer, the call fails (the
    ValueError of [int]). *)
Theorem get_rpc_creds_malformed_port (py_int : string -> option Z)
    (args_rpc_port : option PyVal) (data network : string) :
  py_truthy args_rpc_port = false ->
  (exists v, In ("port", v) (findall SucreConfig.rpc_match 0 data)) ->
  (forall v, In ("port", v) (findall SucreConfig.rpc_match 0 data) ->
     py_int v = None) ->
  SucreConfig.get_rpc_creds py_int args_rpc_port data network = None.
Proof.
  intros Harg (v & Hv) Hbad. unfold SucreConfig.get_rpc_creds. rewrite Harg.
  set (creds0 := dict_of _).
  assert (H0 : exists s, creds0 !! "port" = Some (PStr s)
                         /\ In ("port", s)
                               (findall SucreConfig.rpc_match 0 data)).
  { assert (Hs : is_Some (creds0 !! "port")).
    { apply dict_of_fold_is_Some. left. exists (PStr v).
      apply in_map_iff. exists ("port", v). split; [reflexivity|exact Hv]. }
    destruct Hs as [x Hx]. pose proof Hx as Hin.
    apply dict_of_lookup_In in Hin. apply in_map_iff in Hin.
    destruct Hin as ([k s] & E & Hin). simpl in E. injection E as -> <-.
    exists s. auto. }
  destruct H0 as (s & H0 & Hin). rewrite H0. rewrite H0.
  rewrite (Hbad s Hin). reflexivity.
Qed.

Lemma conf_creds_key (data k : string) (v : PyVal) :
  dict_of (map (fun kv => (fst kv, PStr (snd kv)))
               (findall SucreConfig.rpc_match 0 data)) !! k = Some v ->
  (k = "user" \/ k = "password" \/ k = "port")
  /\ exists s, v = PStr s /\ In (k, s) (findall SucreConfig.rpc_match 0 data).
Proof.
  intros H. apply dict_of_lookup_In in H. apply in_map_iff in H.
  destruct H as ([k' s] & E & Hin). simpl in E. injection E as -> <-.
  pose proof Hin as Hfound.
  apply findall_In in Hin. destruct Hin as (s' & len & Hm).
  split; [exact (rpc_match_key _ _ _ _ Hm)|eauto].
Qed.

(** The dictionary [get_rpc_creds] returns has no other key than user,
    password and port, and what it holds under user or password is a
    string found in the text: the value of a match of
    [rpc(user|password|port)=(.*?)$] for that key. *)
Theorem get_rpc_creds_keys (py_int : string -> option Z)
    (args_rpc_port : option PyVal) (data network : string)
    (creds : gmap string PyVal) (k : string) (v : PyVal) :
  SucreConfig.get_rpc_creds py_int args_rpc_port data network = Some creds ->
  creds !! k = Some v ->
  (k = "user" \/ k = "password" \/ k = "port")
  /\ (k <> "port" ->
      exists s,
        v = PStr s /\ In (k, s) (findall SucreConfig.rpc_match 0 data)).
Proof.
  intros Hget Hk.
  destruct (decide (k = "port")) as [->|Hne]; [split; [auto|congruence]|].
  assert (H0 : dict_of (map (fun kv => (fst kv, PStr (snd kv)))
                            (findall SucreConfig.rpc_match 0 data)) !! k
               = Some v).
  { unfold SucreConfig.get_rpc_creds in Hget.
    set (creds0 := dict_of _) in *.
    destruct (py_truthy args_rpc_port).
    - destruct args_rpc_port as [port|]; injection Hget as <-.
      + rewrite lookup_insert_ne in Hk by congruence. exact Hk.
      + exact Hk.
    - destruct (creds0 !! "port") as [x|] eqn:E0.
      + rewrite E0 in Hget.
        destruct x as [s|n]; [destruct (py_int s); [|discriminate]|];
          injection Hget as <-;
          rewrite lookup_insert_ne in Hk by congruence; exact Hk.
      + rewrite lookup_insert_eq in Hget. injection Hget as <-.
        rewrite !lookup_insert_ne in Hk by congruence. exact Hk. }
  destruct (conf_creds_key _ _ _ H0) as [Hkey Hv]. auto.
Qed.

(** A key [tokenize] returns contains neither an equals sign nor a line
    end, and a value contains no line end: a token never spans two
    lines. *)
Theorem tokenize_token_shape (is_space : ascii -> bool)
    (fs : string -> option string) (filename k v : string) :
  SucreConfig.tokenize is_space fs filename !! k = Some v ->
  has_char "="%char k = false
  /\ has_char newline k = false
  /\ has_char newline v = false.
Proof.
  unfold SucreConfig.tokenize.
  destruct (SucreConfig.slurp_config_file is_space fs filename) as [data|].
  - intros H. apply dict_of_lookup_In in H. apply findall_In in H.
    destruct H as (s' & len & Hm). unfold SucreConfig.token_match in Hm.
    destruct (until_equals s') as [[k' rest]|] eqn:E; [|discriminate].
    injection Hm as -> <- _.
    destruct (until_equals_key _ _ _ E) as [H1 H2].
    split; [exact H1|]. split; [exact H2|apply until_eol_no_newline].
  - rewrite lookup_empty. discriminate.
Qed.

(** ** The further facts on sample data *)

Example tokenize_sample :
  map_to_list (SucreConfig.tokenize ex_space ex_fs "sucr.conf")
  ≡ₚ [("rpcuser", "alice"); ("rpcpassword", "s=t"); ("testnet", "1")].
Proof. vm_compute. reflexivity. Qed.

(** Outside the window [main] returns; on a node that is not a masternode
    it raises. *)
Lemma main_skips_cycle_witness :
  main ex_ranked ex_builder sb_sb_hash ex_cycle_length ex_jitter ex_interval
       (set_next_run (Some 99999) (ex_world [wd_A] [p_old] [] [] false))
  = (Returned, set_next_run (Some 99999) (ex_world [wd_A] [p_old] [] [] false))
  /\ main ex_ranked ex_builder sb_sb_hash ex_cycle_length ex_jitter
          ex_interval ex_not_masternode
     = (Raised "KeyError", ex_not_masternode).
Proof.
  split.
  - apply (main_skips_cycle ex_ranked ex_builder sb_sb_hash ex_cycle_length
             ex_jitter ex_interval).
    right. right. repeat split.
  - apply (main_skips_cycle ex_ranked ex_builder sb_sb_hash ex_cycle_length
             ex_jitter ex_interval ex_not_masternode); reflexivity.
Defined.

Lemma attempt_superblock_creation_does_nothing_witness :
  attempt_superblock_creation ex_ranked (fun _ _ _ _ => None) sb_sb_hash
    (ex_daemon false) (ex_world [] [p_live] [sb_1] [] false)
  = ex_world [] [p_live] [sb_1] [] false.
Proof.
  apply (attempt_superblock_creation_does_nothing ex_ranked
           (fun _ _ _ _ => None) sb_sb_hash).
  right. left. split; [reflexivity|]. right. reflexivity.
Defined.

Lemma watchdog_check_winner_is_kept_witness :
  ~ In (EVote (GWatchdog wd_B) VoteSignals.delete VoteOutcomes.yes)
       (emitted (watchdog_check (ex_daemon false)) ex_watch).
Proof.
  apply (watchdog_check_winner_is_kept (ex_daemon false) ex_watch wd_B).
  - repeat constructor; simpl; intuition discriminate.
  - vm_compute. tauto.
Defined.


Lemma slurp_config_file_drops_comments_witness :
  exists data,
    SucreConfig.slurp_config_file ex_space ex_fs "sucr.conf" = Some data
    /\ forall line, In line (lines_of data) ->
         SucreConfig.is_comment ex_space line = false
         /\ In line (lines_of ex_text).
Proof.
  destruct (slurp_config_file_drops_comments ex_space ex_fs "sucr.conf"
              ex_text eq_refl) as (data & H1 & H2 & _).
  exists data. split; [exact H1|exact H2].
Defined.

Lemma tokenize_missing_file_witness :
  SucreConfig.tokenize ex_space ex_fs "nowhere.conf" = ∅.
Proof.
  apply (tokenize_missing_file ex_space ex_fs "nowhere.conf"). reflexivity.
Defined.

Lemma get_rpc_creds_default_port_witness :
  exists creds,
    SucreConfig.get_rpc_creds ex_int None (ex_line "rpcuser=alice") "testnet"
    = Some creds
    /\ creds !! "port" = Some (PInt 19335).
Proof.
  apply (get_rpc_creds_default_port ex_int None (ex_line "rpcuser=alice")
           "testnet").
  - reflexivity.
  - intros v H. vm_compute in H. destruct H as [E|[]]. discriminate.
Defined.

Lemma get_rpc_creds_port_argument_witness :
  exists creds,
    SucreConfig.get_rpc_creds ex_int (Some (PInt 18443))
      (ex_line "rpcport=none") "mainnet" = Some creds
    /\ creds !! "port" = Some (PInt 18443).
Proof.
  apply (get_rpc_creds_port_argument ex_int (PInt 18443)
           (ex_line "rpcport=none") "mainnet").
  reflexivity.
Defined.

Lemma get_rpc_creds_malformed_port_witness :
  SucreConfig.get_rpc_creds ex_int None (ex_line "rpcport=none") "mainnet"
  = None.
Proof.
  apply (get_rpc_creds_malformed_port ex_int None (ex_line "rpcport=none")
           "mainnet").
  - reflexivity.
  - exists "none". vm_compute. tauto.
  - intros v H. vm_compute in H. destruct H as [E|[]].
    injection E as <-. reflexivity.
Defined.

Lemma get_rpc_creds_keys_witness :
  exists creds s,
    SucreConfig.get_rpc_creds ex_int None (ex_line "rpcuser=alice") "mainnet" = Some creds
    /\ creds !! "user" = Some s
    /\ exists text,
         s = PStr text
         /\ In ("user", text)
              (findall SucreConfig.rpc_match 0 (ex_line "rpcuser=alice")).
Proof.
  destruct (SucreConfig.get_rpc_creds ex_int None (ex_line "rpcuser=alice") "mainnet")
    as [creds|] eqn:H; [|vm_compute in H; discriminate].
  assert (Hu : creds !! "user" = Some (PStr "alice")).
  { apply (f_equal (fun o => match o with
                             | Some c => c !! "user"
                             | None => None
                             end)) in H.
    vm_compute in H. symmetry. exact H. }
  exists creds, (PStr "alice"). split; [reflexivity|]. split; [exact Hu|].
  apply (get_rpc_creds_keys ex_int None (ex_line "rpcuser=alice") "mainnet" creds "user"
           (PStr "alice") H Hu).
  discriminate.
Defined.

Lemma tokenize_token_shape_witness :
  has_char "="%char "rpcpassword" = false
  /\ has_char newline "rpcpassword" = false
  /\ has_char newline "s=t" = false.
Proof.
  apply (tokenize_token_shape ex_space ex_fs "sucr.conf" "rpcpassword" "s=t").
  vm_compute. reflexivity.
Defined.
